(** * FeedbackPDF: the survey extraction pipeline of the PDF processing
      edge function

    A shallow embedding of [supabase/functions/test-openai/index.ts]
    (the "Enhanced PDF Processing Edge Function"): field validation, the
    meaningful-data filter, the scanned-document detector, the form
    segmenter, the three extraction paths (LLM text, LLM vision, traditional)
    and the request handler with its job-status updates.

    Conventions of the model.
    - A JavaScript string is a [string]: a sequence of code units below 256.
    - A JavaScript number is a [number]: NaN, an infinity, or a rational.
      Every finite double is a rational, and [<], [>] on doubles agree with
      the order of the rationals.  The integer read by [parseInt] and the
      value read by [Number] from a string are kept exact.
    - [undefined] is [None] of type [value]; every other value that
      [JSON.parse] can produce is a [json].
    - A thrown exception is the [Throw] outcome; [try]/[catch] is a match.
    - What the network, the storage, the clock, the text decoders and
      [JSON.parse] answer during one run is recorded in a [World], and so is
      what becomes of each update of the upload: applied, refused or
      rejected.  The two tables the handler writes to are a [Database],
      passed from step to step. *)

From Stdlib Require Import List String Ascii ZArith QArith Bool Lia PeanoNat DecimalString.
From Stdlib Require Qcanon.
Import ListNotations.
Local Open Scope string_scope.
Local Open Scope list_scope.
Local Open Scope nat_scope.

(** ** JavaScript values *)

Inductive number : Type :=
| NaN
| Inf (negative : bool)
| Num (q : Q).

#[warnings="-register-all"]
Inductive json : Type :=
| JNull
| JBool (b : bool)
| JNum (n : number)
| JStr (s : string)
| JArr (items : list json)
| JObj (fields : list (string * json)).

(** [None] is [undefined]. *)
Definition value : Type := option json.

Definition undefined : value := None.

(** [a < b] on numbers (false as soon as one side is NaN). *)
Definition num_lt (a b : number) : bool :=
  match a, b with
  | NaN, _ => false
  | _, NaN => false
  | Inf true, Inf true => false
  | Inf true, _ => true
  | _, Inf true => false
  | Inf false, _ => false
  | Num _, Inf false => true
  | Num x, Num y => negb (Qle_bool y x)
  end.

(** [a > b] is [b < a]. *)
Definition num_gt (a b : number) : bool := num_lt b a.

(** [a <= b] on numbers, used to state ranges. *)
Definition num_le (a b : number) : bool :=
  match a, b with
  | NaN, _ => false
  | _, NaN => false
  | Inf true, _ => true
  | _, Inf false => true
  | Inf false, _ => false
  | Num _, Inf true => false
  | Num x, Num y => Qle_bool x y
  end.

Definition num_isNaN (a : number) : bool :=
  match a with NaN => true | _ => false end.

Definition num_of_Z (z : Z) : number := Num (inject_Z z).

(** ** Strings *)

Definition code (c : ascii) : nat := nat_of_ascii c.

(** WhiteSpace and LineTerminator code units below 256: TAB, LF, VT, FF, CR,
    SP and NBSP.  This is the set of [\s] and of [trim]. *)
Definition is_space (c : ascii) : bool :=
  let n := code c in
  ((9 <=? n) && (n <=? 13)) || (n =? 32) || (n =? 160).

Definition is_digit (c : ascii) : bool :=
  let n := code c in (48 <=? n) && (n <=? 57).

Definition is_upper (c : ascii) : bool :=
  let n := code c in (65 <=? n) && (n <=? 90).

Definition is_lower (c : ascii) : bool :=
  let n := code c in (97 <=? n) && (n <=? 122).

Definition is_alpha (c : ascii) : bool := is_upper c || is_lower c.

(** [\w]: letters, digits and underscore. *)
Definition is_word (c : ascii) : bool :=
  is_alpha c || is_digit c || (code c =? 95).

(** Lower-casing of one code unit: A-Z, and the Latin-1 capitals
    U+00C0..U+00DE except the multiplication sign U+00D7. *)
Definition lower_char (c : ascii) : ascii :=
  let n := code c in
  if is_upper c then ascii_of_nat (n + 32)
  else if (192 <=? n) && (n <=? 222) && negb (n =? 215) then ascii_of_nat (n + 32)
  else c.

Fixpoint toLowerCase (s : string) : string :=
  match s with
  | EmptyString => EmptyString
  | String c t => String (lower_char c) (toLowerCase t)
  end.

Fixpoint trimStart (s : string) : string :=
  match s with
  | EmptyString => EmptyString
  | String c t => if is_space c then trimStart t else s
  end.

Fixpoint trimEnd (s : string) : string :=
  match s with
  | EmptyString => EmptyString
  | String c t =>
      match trimEnd t with
      | EmptyString => if is_space c then EmptyString else String c EmptyString
      | t' => String c t'
      end
  end.

Definition trim (s : string) : string := trimEnd (trimStart s).

(** [s.startsWith(p)], giving the rest of [s] after [p]. *)
Fixpoint strip_prefix (p s : string) : option string :=
  match p, s with
  | EmptyString, _ => Some s
  | String a p', String b s' => if Ascii.eqb a b then strip_prefix p' s' else None
  | String _ _, EmptyString => None
  end.

(** [s.includes(p)]. *)
Fixpoint includes (s p : string) : bool :=
  match strip_prefix p s with
  | Some _ => true
  | None => match s with
            | EmptyString => false
            | String _ t => includes t p
            end
  end.

(** [s.split(sep)] for a non-empty literal separator; [skip] counts the
    code units of the separator occurrence still to be passed. *)
Fixpoint split_lit_go (sep : string) (skip : nat) (acc : string) (s : string)
  : list string :=
  match s with
  | EmptyString => [acc]
  | String c t =>
      match skip with
      | S k => split_lit_go sep k acc t
      | O =>
          match strip_prefix sep s with
          | Some _ => acc :: split_lit_go sep (String.length sep - 1) EmptyString t
          | None => split_lit_go sep 0 (acc ++ String c EmptyString)%string t
          end
      end
  end.

Definition split_lit (sep s : string) : list string := split_lit_go sep 0 EmptyString s.

(** ** Reading numbers from strings *)

(** The value of a code unit as a digit (0-9, a-z, A-Z), when below the radix. *)
Definition radix_digit (R : Z) (c : ascii) : option Z :=
  let d := if is_digit c then Some (Z.of_nat (code c) - 48)%Z
           else if is_lower c then Some (Z.of_nat (code c) - 87)%Z
           else if is_upper c then Some (Z.of_nat (code c) - 55)%Z
           else None in
  match d with
  | Some v => if (v <? R)%Z then Some v else None
  | None => None
  end.

(** The longest prefix of radix-[R] digits: its value on top of [acc], the
    number of digits read on top of [n], and the rest of the string. *)
Fixpoint read_digits (R : Z) (acc : Z) (n : nat) (s : string) : Z * nat * string :=
  match s with
  | EmptyString => (acc, n, EmptyString)
  | String c t =>
      match radix_digit R c with
      | Some d => read_digits R (acc * R + d)%Z (S n) t
      | None => (acc, n, s)
      end
  end.

(** A leading sign: whether it is a minus, and the rest. *)
Definition read_sign (s : string) : bool * string :=
  match s with
  | String c t =>
      if Ascii.eqb c "-" then (true, t)
      else if Ascii.eqb c "+" then (false, t)
      else (false, s)
  | EmptyString => (false, s)
  end.

(** [parseInt(s)] without a radix: leading white space is skipped, then a
    sign, then a [0x] prefix selects radix 16, then the longest prefix of
    digits is read; whatever follows is ignored. *)
Definition parseInt (s : string) : number :=
  let '(neg, s1) := read_sign (trimStart s) in
  let '(R, s2) :=
    match strip_prefix "0x" s1 with
    | Some t => (16%Z, t)
    | None => match strip_prefix "0X" s1 with
              | Some t => (16%Z, t)
              | None => (10%Z, s1)
              end
    end in
  let '(v, n, _) := read_digits R 0 0 s2 in
  if n =? 0 then NaN else num_of_Z (if neg then - v else v).

(** [0x], [0o], [0b] literals of [Number(s)]: digits up to the end. *)
Definition nondecimal_literal (t : string) : option number :=
  let try (p : string) (R : Z) : option number :=
    match strip_prefix p t with
    | Some r =>
        let '(v, n, rest) := read_digits R 0 0 r in
        Some (if (0 <? n) && (rest =? "")%string then num_of_Z v else NaN)
    | None => None
    end in
  match try "0x" 16%Z, try "0X" 16%Z, try "0o" 8%Z, try "0O" 8%Z, try "0b" 2%Z, try "0B" 2%Z with
  | Some x, _, _, _, _, _ => Some x
  | _, Some x, _, _, _, _ => Some x
  | _, _, Some x, _, _, _ => Some x
  | _, _, _, Some x, _, _ => Some x
  | _, _, _, _, Some x, _ => Some x
  | _, _, _, _, _, Some x => Some x
  | _, _, _, _, _, _ => None
  end.

(** The exponent part of a decimal literal, up to the end of the string. *)
Definition read_exponent (r : string) : option Z :=
  match r with
  | EmptyString => Some 0%Z
  | String c e =>
      if (Ascii.eqb c "e" || Ascii.eqb c "E")%bool then
        let '(eneg, e1) := read_sign e in
        let '(ev, en, erest) := read_digits 10 0 0 e1 in
        if (0 <? en) && (erest =? "")%string then Some (if eneg then - ev else ev)%Z
        else None
      else None
  end.

(** A signed decimal literal of [Number(s)]: [Infinity], or digits with an
    optional fraction and an optional exponent, up to the end. *)
Definition decimal_literal (t : string) : number :=
  let '(neg, u) := read_sign t in
  if (u =? "Infinity")%string then Inf neg
  else
    let '(ip, n1, r1) := read_digits 10 0 0 u in
    let '(m, n2, r2) :=
      match r1 with
      | String c f => if Ascii.eqb c "." then read_digits 10 ip 0 f else (ip, 0, r1)
      | EmptyString => (ip, 0, r1)
      end in
    if (n1 + n2 =? 0) then NaN
    else
      match read_exponent r2 with
      | None => NaN
      | Some e =>
          let q := (inject_Z m / inject_Z (10 ^ Z.of_nat n2) * Qpower 10 e)%Q in
          Num (Qred (if neg then - q else q)%Q)
      end.

(** [Number(s)] for a string: the StringNumericLiteral grammar. *)
Definition StringToNumber (s : string) : number :=
  let t := trim s in
  if (t =? "")%string then Num 0
  else match nondecimal_literal t with
       | Some n => n
       | None => decimal_literal t
       end.

(** [Number(v)] for the values of JSON: an array goes through its string
    form, the elements joined with commas, so that only the empty array and
    the one-element arrays can be numbers; an object is never a number. *)
Fixpoint ToNumber (j : json) : number :=
  match j with
  | JNull => Num 0
  | JBool b => Num (if b then 1 else 0)
  | JNum n => n
  | JStr s => StringToNumber s
  | JArr [] => Num 0
  | JArr [x] => match x with
                | JBool _ => NaN
                | _ => ToNumber x
                end
  | JArr _ => NaN
  | JObj _ => NaN
  end.

(** [isNaN(v)]. *)
Definition isNaN (j : json) : bool := num_isNaN (ToNumber j).

(** Truthiness: [undefined], [null], [false], [0], [NaN] and [""] are falsy. *)
Definition truthy (v : value) : bool :=
  match v with
  | None => false
  | Some JNull => false
  | Some (JBool b) => b
  | Some (JNum NaN) => false
  | Some (JNum (Inf _)) => true
  | Some (JNum (Num q)) => negb (Qeq_bool q 0)
  | Some (JStr s) => negb (s =? "")%string
  | Some (JArr _) => true
  | Some (JObj _) => true
  end.

(** [Array.isArray(v)]. *)
Definition isArray (v : value) : bool :=
  match v with Some (JArr _) => true | _ => false end.

(** [v && typeof v === 'object']. *)
Definition is_object (j : json) : bool :=
  match j with JArr _ => true | JObj _ => true | _ => false end.

Fixpoint assoc (k : string) (fields : list (string * json)) : value :=
  match fields with
  | [] => None
  | (k', v) :: rest => if (k =? k')%string then Some v else assoc k rest
  end.

(** [j.k] on a value that is neither [null] nor [undefined], for the
    property names the program reads: none of them is defined on arrays,
    strings, numbers or booleans, so only an object can have them. *)
Definition prop (j : json) (k : string) : value :=
  match j with
  | JObj fields => assoc k fields
  | _ => None
  end.

(** [j[0]]. *)
Definition index0 (j : json) : value :=
  match j with
  | JArr (x :: _) => Some x
  | JStr (String c _) => Some (JStr (String c EmptyString))
  | JObj fields => assoc "0" fields
  | _ => None
  end.

(** ** Survey responses *)

(** A text field of a response: missing, [null], or a string. *)
Inductive field : Type :=
| FUndefined
| FNull
| FStr (s : string).

Record SurveyResponse : Type := mkSurveyResponse {
  course_name : string;
  response_date : value;
  q1_rating : value;
  q2_rating : value;
  q3_rating : value;
  q4_rating : value;
  q5_rating : value;
  q6_rating : value;
  q7_rating : value;
  q8_rating : value;
  q9_rating : value;
  q10_rating : value;
  q11_expectations : field;
  q12_overall_rating : field;
  learned_1 : field;
  learned_2 : field;
  learned_3 : field;
  suggestions : field;
  comments : field;
  interested_more : field;
  participant_name : field;
  company : field;
  email : field;
  phone : field
}.

(** The object literal [{ course_name: c, response_date: d }]: every other
    property is missing. *)
Definition bare_response (c : string) (d : value) : SurveyResponse :=
  mkSurveyResponse c d None None None None None None None None None None
    FUndefined FUndefined FUndefined FUndefined FUndefined FUndefined
    FUndefined FUndefined FUndefined FUndefined FUndefined FUndefined.

(** ** Validation helper functions *)

Definition validateRating (v : value) (min max : number) : json :=
  match v with
  | None => JNull
  | Some JNull => JNull
  | Some (JStr EmptyString) => JNull
  | Some j =>
      let num := match j with
                 | JStr s => JNum (parseInt s)
                 | _ => j
                 end in
      if isNaN num || num_lt (ToNumber num) min || num_gt (ToNumber num) max
      then JNull
      else num
  end.

Definition validateText (v : value) : field :=
  match v with
  | Some (JStr s) =>
      if (s =? "")%string then FNull
      else
        let cleaned := trim s in
        if (String.length cleaned =? 0) || (1000 <? String.length cleaned)
        then FNull
        else FStr cleaned
  | _ => FNull
  end.

(** ** Regular expressions

    The backtracking matcher of the language: alternatives are tried in
    order, [*] is greedy, and an iteration of [*] that consumes nothing is
    refused.  A matcher is run at one position of the subject string: [prev]
    is the code unit before that position ([None] at index 0) and [s] the
    rest of the subject from there. *)

Inductive regex : Type :=
| Eps
| Chr (p : ascii -> bool)
| Cat (r1 r2 : regex)
| Alt (r1 r2 : regex)
| Star (r : regex)
| Bol
| Eol
| WordB.

Definition is_word_opt (c : option ascii) : bool :=
  match c with Some x => is_word x | None => false end.

Definition head_char (s : string) : option ascii :=
  match s with String c _ => Some c | EmptyString => None end.

Fixpoint rmatch (r : regex) (prev : option ascii) (s : string)
  (k : option ascii -> string -> option string) {struct r} : option string :=
  match r with
  | Eps => k prev s
  | Chr p =>
      match s with
      | String c t => if p c then k (Some c) t else None
      | EmptyString => None
      end
  | Cat r1 r2 => rmatch r1 prev s (fun p1 s1 => rmatch r2 p1 s1 k)
  | Alt r1 r2 =>
      match rmatch r1 prev s k with
      | Some rest => Some rest
      | None => rmatch r2 prev s k
      end
  | Star r1 =>
      (fix star (fuel : nat) (prev : option ascii) (s : string) {struct fuel}
         : option string :=
         match fuel with
         | O => k prev s
         | S fuel' =>
             match rmatch r1 prev s
                     (fun p1 s1 =>
                        if String.length s1 <? String.length s
                        then star fuel' p1 s1 else None) with
             | Some rest => Some rest
             | None => k prev s
             end
         end) (String.length s) prev s
  | Bol => match prev with None => k prev s | Some _ => None end
  | Eol => match s with EmptyString => k prev s | String _ _ => None end
  | WordB =>
      if xorb (is_word_opt prev) (is_word_opt (head_char s)) then k prev s else None
  end.

(** A match starting exactly here: what is left of the subject after it. *)
Definition match_at (r : regex) (prev : option ascii) (s : string) : option string :=
  rmatch r prev s (fun _ rest => Some rest).

(** The first [n] code units of [s]. *)
Fixpoint take (n : nat) (s : string) : string :=
  match n, s with
  | S n', String c t => String c (take n' t)
  | _, _ => EmptyString
  end.

(** The last code unit of [s], or [d] when [s] is empty. *)
Fixpoint last_char (s : string) (d : option ascii) : option ascii :=
  match s with
  | EmptyString => d
  | String c t => last_char t (Some c)
  end.

(** The leftmost match at or after this position: the text passed over, the
    matched text and the rest. *)
Fixpoint search (r : regex) (prev : option ascii) (s : string)
  : option (string * string * string) :=
  match match_at r prev s with
  | Some rest => Some (EmptyString, take (String.length s - String.length rest) s, rest)
  | None =>
      match s with
      | EmptyString => None
      | String c t =>
          match search r (Some c) t with
          | Some (before, m, rest) => Some (String c before, m, rest)
          | None => None
          end
      end
  end.

(** [re.test(s)] for a regular expression without the [g] flag. *)
Definition test (r : regex) (s : string) : bool :=
  match search r None s with Some _ => true | None => false end.

(** [s.match(re) || []] for a regular expression with the [g] flag: all the
    matches from left to right; after an empty match the search resumes one
    code unit further. *)
Fixpoint match_all_go (fuel : nat) (r : regex) (prev : option ascii) (s : string)
  : list string :=
  match fuel with
  | O => []
  | S fuel' =>
      match search r prev s with
      | None => []
      | Some (before, m, rest) =>
          let prev' := last_char m (last_char before prev) in
          match m, rest with
          | EmptyString, EmptyString => [m]
          | EmptyString, String c t => m :: match_all_go fuel' r (Some c) t
          | _, _ => m :: match_all_go fuel' r prev' rest
          end
      end
  end.

Definition match_all (r : regex) (s : string) : list string :=
  match_all_go (S (String.length s)) r None s.

(** [s.replace(re, f)] for a regular expression with the [g] flag, [f]
    giving the replacement of each matched text. *)
Fixpoint replace_go (fuel : nat) (r : regex) (f : string -> string)
  (prev : option ascii) (s : string) : string :=
  match fuel with
  | O => s
  | S fuel' =>
      match search r prev s with
      | None => s
      | Some (before, m, rest) =>
          let prev' := last_char m (last_char before prev) in
          (before ++ f m ++
             match m, rest with
             | EmptyString, EmptyString => EmptyString
             | EmptyString, String c t => String c (replace_go fuel' r f (Some c) t)
             | _, _ => replace_go fuel' r f prev' rest
             end)%string
      end
  end.

Definition replace_all (r : regex) (f : string -> string) (s : string) : string :=
  replace_go (S (String.length s)) r f None s.

(** [s.split(re)] for a regular expression without capturing groups: [acc]
    is the text between the end [p] of the last separator and the position
    [q] being tried; a match that ends at [p] is not a separator. *)
Fixpoint split_go (fuel : nat) (r : regex) (acc : string) (prev : option ascii)
  (s : string) : list string :=
  match fuel with
  | O => [(acc ++ s)%string]
  | S fuel' =>
      match s with
      | EmptyString => [acc]
      | String c t =>
          match match_at r prev s with
          | None => split_go fuel' r (acc ++ String c EmptyString)%string (Some c) t
          | Some rest =>
              if (String.length rest =? String.length s) && (acc =? "")%string
              then split_go fuel' r (acc ++ String c EmptyString)%string (Some c) t
              else
                let m := take (String.length s - String.length rest) s in
                acc :: split_go fuel' r EmptyString (last_char m prev) rest
          end
      end
  end.

Definition split (r : regex) (s : string) : list string :=
  match s with
  | EmptyString =>
      match match_at r None EmptyString with
      | Some _ => []
      | None => [EmptyString]
      end
  | _ => split_go (2 * String.length s + 1) r EmptyString None s
  end.

(** *** Building patterns *)

Fixpoint seq (rs : list regex) : regex :=
  match rs with
  | [] => Eps
  | [r] => r
  | r :: rest => Cat r (seq rest)
  end.

Fixpoint alt (rs : list regex) : regex :=
  match rs with
  | [] => Chr (fun _ => false)
  | [r] => r
  | r :: rest => Alt r (alt rest)
  end.

Definition plus (r : regex) : regex := Cat r (Star r).

(** [r{n,}]. *)
Fixpoint at_least (n : nat) (r : regex) : regex :=
  match n with
  | O => Star r
  | S n' => Cat r (at_least n' r)
  end.

(** One code unit of the pattern. *)
Definition chr (c : ascii) : regex := Chr (Ascii.eqb c).

(** One code unit of the pattern under the [i] flag. *)
Definition chr_i (c : ascii) : regex :=
  Chr (fun x => Ascii.eqb (lower_char x) (lower_char c)).

(** A literal text of the pattern under the [i] flag. *)
Fixpoint lit_i (s : string) : regex :=
  match s with
  | EmptyString => Eps
  | String c EmptyString => chr_i c
  | String c t => Cat (chr_i c) (lit_i t)
  end.

Definition one_of (cs : string) : ascii -> bool :=
  fun x => existsb (Ascii.eqb x) (list_ascii_of_string cs).

Definition ws : regex := Chr is_space.                       (* \s *)
Definition non_ws : regex := Chr (fun c => negb (is_space c)). (* \S *)
Definition digit : regex := Chr is_digit.                    (* \d *)
Definition letter : regex := Chr is_alpha.                   (* [A-Za-z] *)
Definition newline : regex := Chr (fun c => code c =? 10).   (* \n *)
(** [.]: anything but a line terminator. *)
Definition dot : regex := Chr (fun c => negb ((code c =? 10) || (code c =? 13))).
Definition colon_or_equals : regex := Chr (one_of ":=").     (* [:=] *)
(** [[\.:\s]] *)
Definition dot_colon_or_ws : regex := Chr (fun c => one_of ".:" c || is_space c).
(** [(?:^|\n)\s*], the start of most separators. *)
Definition line_start : regex := Cat (Alt Bol newline) (Star ws).

(** [/^[^\s@]+@[^\s@]+\.[^\s@]+$/] *)
Definition emailRegex : regex :=
  let part := plus (Chr (fun c => negb (is_space c || Ascii.eqb c "@"))) in
  seq [Bol; part; chr "@"; part; chr "."; part; Eol].

Definition validateEmail (v : value) : field :=
  match v with
  | Some (JStr s) =>
      if (s =? "")%string then FNull
      else if test emailRegex (trim s) then FStr (toLowerCase (trim s))
      else FNull
  | _ => FNull
  end.

(** [rating !== null && rating !== undefined] *)
Definition present (rating : value) : bool :=
  match rating with
  | None => false
  | Some JNull => false
  | Some _ => true
  end.

(** [text && text.trim().length > n] *)
Definition trimmed_longer_than (n : nat) (text : field) : bool :=
  match text with
  | FStr s => negb (s =? "")%string && (n <? String.length (trim s))
  | _ => false
  end.

Definition hasMeaningfulSurveyData (response : SurveyResponse) : bool :=
  (* Check if the response has any survey ratings *)
  let hasRatings :=
    existsb present
      [ q1_rating response; q2_rating response; q3_rating response;
        q4_rating response; q5_rating response; q6_rating response;
        q7_rating response; q8_rating response; q9_rating response;
        q10_rating response ] in
  (* Check if the response has meaningful text responses *)
  let hasTextResponses :=
    existsb (trimmed_longer_than 5)
      [ learned_1 response; learned_2 response; learned_3 response;
        suggestions response; comments response; q11_expectations response;
        q12_overall_rating response ] in
  (* Check if the response has contact information *)
  let hasContactInfo :=
    existsb (trimmed_longer_than 0)
      [ participant_name response; company response; email response;
        phone response ] in
  hasRatings || hasTextResponses || hasContactInfo.

(** [a || null] *)
Definition or_null (a : value) : value :=
  if truthy a then a else Some JNull.

(** The object built from one element of the LLM answer ("validate and
    clean the responses"), the same in the text and in the vision path. *)
Definition clean_response (courseName : string) (response : json) : SurveyResponse :=
  let likert k := Some (validateRating (prop response k) (Num 1) (Num 5)) in
  {| course_name := courseName;
     response_date := or_null (prop response "response_date");
     q1_rating := likert "q1_rating";
     q2_rating := likert "q2_rating";
     q3_rating := likert "q3_rating";
     q4_rating := likert "q4_rating";
     q5_rating := likert "q5_rating";
     q6_rating := likert "q6_rating";
     q7_rating := likert "q7_rating";
     q8_rating := likert "q8_rating";
     q9_rating := likert "q9_rating";
     q10_rating := Some (validateRating (prop response "q10_rating") (Num 0) (Num 10));
     q11_expectations := validateText (prop response "q11_expectations");
     q12_overall_rating := validateText (prop response "q12_overall_rating");
     learned_1 := validateText (prop response "learned_1");
     learned_2 := validateText (prop response "learned_2");
     learned_3 := validateText (prop response "learned_3");
     suggestions := validateText (prop response "suggestions");
     comments := validateText (prop response "comments");
     interested_more := validateText (prop response "interested_more");
     participant_name := validateText (prop response "participant_name");
     company := validateText (prop response "company");
     email := validateEmail (prop response "email");
     phone := validateText (prop response "phone") |}.

(** [responses.filter(object).map(clean).filter(hasMeaningfulSurveyData)] *)
Definition validResponses (courseName : string) (responses : list json)
  : list SurveyResponse :=
  filter hasMeaningfulSurveyData
    (map (clean_response courseName) (filter is_object responses)).

(** ** Scanned-document detection (in [processPDFWithOpenAI]) *)

(** [/[a-zA-Z\s]{3,}/g] *)
Definition readable_re : regex :=
  at_least 3 (Chr (fun c => is_alpha c || is_space c)).

(** [/\b[a-zA-Z]{4,}\b/g] *)
Definition word_re : regex := seq [WordB; at_least 4 letter; WordB].

(** [a / b] for two lengths. *)
Definition length_ratio (a b : nat) : number :=
  if b =? 0 then (if a =? 0 then NaN else Inf false)
  else Num (Z.of_nat a # Pos.of_nat b).

Definition readableTextRatio (rawText : string) : number :=
  length_ratio
    (String.length (String.concat "" (match_all readable_re rawText)))
    (String.length rawText).

Definition hasEncodedData (rawText : string) : bool :=
  includes rawText "DCTDecode" || includes rawText "stream"
  || includes rawText "endobj" || includes rawText "XObject".

Definition real_words (rawText : string) : list string :=
  match_all word_re rawText.

Definition hasActualWords (rawText : string) : bool :=
  50 <? List.length (real_words rawText).

Definition isLikelyScanned (rawText : string) : bool :=
  hasEncodedData rawText && negb (hasActualWords rawText).

(** The condition under which the vision path is taken. *)
Definition appears_scanned (rawText : string) : bool :=
  num_lt (readableTextRatio rawText) (Num (3 # 10)) || isLikelyScanned rawText.

(** ** Text normalisation and form sections *)

Definition one_space (_ : string) : string := " ".

Definition collapse_spaces (s : string) : string :=
  replace_all (plus ws) one_space s.

(** [/\b(\d+)\s*[\.\/\-]\s*(\d+)\s*[\.\/\-]\s*(\d+)\b/g] *)
Definition date_re : regex :=
  let sep := seq [Star ws; Chr (one_of "./-"); Star ws] in
  seq [WordB; plus digit; sep; plus digit; sep; plus digit; WordB].

(** ['$1/$2/$3'] on a text matched by [date_re]: the three groups are the
    three runs of digits of the matched text, so that the replacement is the
    matched text with each run of other code units turned into a slash. *)
Definition slash_date (m : string) : string :=
  replace_all (plus (Chr (fun c => negb (is_digit c)))) (fun _ => "/") m.

(** [/\b(strongly\s+agree|strongly\s+disagree)\b/gi] *)
Definition strongly_re : regex :=
  seq [WordB;
       alt [seq [lit_i "strongly"; plus ws; lit_i "agree"];
            seq [lit_i "strongly"; plus ws; lit_i "disagree"]];
       WordB].

Definition cleanAndNormalizeText (text : string) : string :=
  trim
    (replace_all strongly_re collapse_spaces
       (replace_all date_re slash_date
          (replace_all (Chr (fun c => negb ((32 <=? code c) && (code c <=? 126))))
             one_space
             (collapse_spaces text)))).

Definition separators : list regex :=
  [ alt [seq [lit_i "course"; plus ws; lit_i "evaluation"];
         seq [lit_i "survey"; plus ws; lit_i "form"];
         seq [lit_i "feedback"; plus ws; lit_i "form"];
         seq [lit_i "evaluation"; plus ws; lit_i "survey"]];
    alt [seq [lit_i "participant"; plus ws; plus digit];
         seq [lit_i "respondent"; plus ws; plus digit]];
    alt [seq [lit_i "name"; Star ws; chr ":"];
         seq [lit_i "participant"; Star ws; lit_i "name"; Star ws; chr ":"]];
    alt [seq [lit_i "page"; plus ws; plus digit];
         seq [lit_i "form"; plus ws; plus digit]];
    seq [lit_i "date"; Star ws; chr ":"; Star ws;
         plus digit; chr "/"; plus digit; chr "/"; plus digit];
    seq [line_start; chr "1"; chr "."; Star ws;
         alt [seq [lit_i "the"; plus ws; lit_i "trainer"]; lit_i "trainer"]];
    (* Enhanced separators for better form detection *)
    seq [line_start;
         alt [lit_i "name"; lit_i "participant"; lit_i "respondent"; lit_i "student"];
         Star ws; colon_or_equals; Star ws; letter];
    seq [line_start;
         alt [lit_i "company"; lit_i "organization"; lit_i "dept"; lit_i "department"];
         Star ws; colon_or_equals];
    seq [line_start; alt [lit_i "email"; lit_i "e-mail"];
         Star ws; colon_or_equals; Star ws; plus non_ws; chr "@"; plus non_ws];
    seq [line_start;
         alt [lit_i "phone"; lit_i "tel"; lit_i "telephone"; lit_i "mobile"];
         Star ws; colon_or_equals];
    seq [line_start;
         alt [lit_i "signature"; lit_i "signed"; lit_i "date signed"];
         Star ws; colon_or_equals];
    alt [seq [line_start; lit_i "Q1"; dot_colon_or_ws];
         seq [line_start; chr "1"; dot_colon_or_ws; Star dot;
              alt [lit_i "trainer"; lit_i "instructor"]]];
    seq [line_start;
         alt [lit_i "strongly disagree"; lit_i "disagree"; lit_i "neutral";
              lit_i "agree"; lit_i "strongly agree"]];
    seq [line_start;
         alt [lit_i "poor"; lit_i "fair"; lit_i "good"; lit_i "very good";
              lit_i "excellent"]];
    seq [line_start; alt [lit_i "rating"; lit_i "score"; lit_i "evaluation"];
         Star ws; colon_or_equals];
    seq [line_start;
         alt [lit_i "overall"; lit_i "recommendation"; lit_i "recommend"];
         Star ws; colon_or_equals];
    (* Look for repeated patterns that indicate new forms *)
    seq [line_start;
         alt [lit_i "please"; lit_i "kindly"; lit_i "we would"; lit_i "your feedback"]];
    seq [line_start; alt [lit_i "thank you"; lit_i "thanks"; lit_i "appreciate"]] ].

(** [part.trim().length > 50] *)
Definition long_enough (part : string) : bool := 50 <? String.length (trim part).

(** One turn of the loop over the separators, [splitter] being
    [section => section.split(separator)]. *)
Definition split_round (sections : list string) (splitter : string -> list string)
  : list string :=
  let newSections := flat_map (fun section => filter long_enough (splitter section)) sections in
  if (List.length sections <? List.length newSections) && (List.length newSections <=? 50)
  then newSections
  else sections.

(** The loop that merges smaller sections, from [currentSection] on. *)
Fixpoint merge_sections (currentSection : string) (sections : list string)
  : list string :=
  match sections with
  | [] => if long_enough currentSection then [trim currentSection] else []
  | section :: rest =>
      if String.length currentSection + String.length section <? 1500
      then merge_sections (currentSection ++ " " ++ section)%string rest
      else (if long_enough currentSection then [trim currentSection] else [])
             ++ merge_sections section rest
  end.

Definition form_sections_by (splitters : list (string -> list string)) (text : string)
  : list string :=
  let sections := fold_left split_round splitters [text] in
  (* If we have too many sections, merge smaller ones *)
  let sections := if 15 <? List.length sections
                  then merge_sections "" sections
                  else sections in
  firstn 50 sections.

Definition splitIntoFormSections (text : string) : list string :=
  form_sections_by (map split separators) text.

(** Only the course name is set: "Add basic extraction logic here...". *)
Definition extractSurveyDataEnhanced (text : string) (courseName : string)
  : SurveyResponse :=
  bare_response courseName undefined.

(** ** Exceptions *)

Inductive outcome (A : Type) : Type :=
| Return (a : A)
| Throw (message : string).
Arguments Return {A} a.
Arguments Throw {A} message.

Definition bind {A B : Type} (m : outcome A) (k : A -> outcome B) : outcome B :=
  match m with
  | Return a => k a
  | Throw e => Throw e
  end.

Declare Scope outcome_scope.
Delimit Scope outcome_scope with outcome.
Notation "x <- m ;; k" := (bind m (fun x => k))
  (at level 61, m at next level, right associativity) : outcome_scope.
Local Open Scope outcome_scope.

(** [try { body } catch { handler }] *)
Definition try_catch {A : Type} (body : outcome A) (handler : string -> outcome A)
  : outcome A :=
  match body with
  | Return a => Return a
  | Throw e => handler e
  end.

(** [v.k] where [v] may be [null] or [undefined]: a TypeError then. *)
Definition member (v : value) (access : json -> value) : outcome value :=
  match v with
  | None => Throw "TypeError"
  | Some JNull => Throw "TypeError"
  | Some j => Return (access j)
  end.

(** [v?.k] *)
Definition optional (v : value) (access : json -> value) : value :=
  match v with
  | None => None
  | Some JNull => None
  | Some j => access j
  end.

(** ** What one run meets outside the program *)

(** The answer to one [fetch] of the chat completions endpoint:
    [response.ok] and what [await response.json()] gives. *)
Record HttpResponse : Type := {
  ok : bool;
  json_body : outcome json
}.

(** One call of the LLM: what [await fetch(...)] gives, and what
    [JSON.parse] gives on the content of the answer when that content is
    not [undefined]. *)
Record LLMCall : Type := {
  fetched : outcome HttpResponse;
  parsed : outcome json
}.

Record RequestBody : Type := {
  reqUploadId : value;
  reqFileUrl : option string
}.

Record UserSettings : Type := {
  openai_api_key : option string;
  openai_model : option string;
  openai_enabled : bool
}.

(** What becomes of one update of [course_uploads]: the row is changed; or
    the call resolves with an error and the row is left as it was; or the
    call is rejected, the row being left as it was. *)
Inductive UpdateResult : Type :=
| Applied
| Refused
| Rejected (error : string).

Record World : Type := {
  req_method : string;
  req_json : outcome RequestBody;          (* await req.json() *)
  processing_update : UpdateResult;        (* the update to 'processing' *)
  select_error : bool;                     (* the select of the upload fails *)
  user_settings : option UserSettings;     (* the row of user_settings, if any *)
  download_error : option string;          (* downloadError.message *)
  download_data : bool;                    (* pdfData is not null *)
  structure_text : string;                 (* extractTextFromPDFStructure(pdfBytes) *)
  ocr_like_text : string;                  (* extractTextWithOCRLike(pdfBytes) *)
  raw_text : string;                       (* extractRawTextFromPDF(pdfBytes) *)
  text_call : LLMCall;                     (* the call of the text path *)
  images : outcome (list LLMCall);         (* convertPDFToImages, with the call of each page *)
  today : string;                          (* new Date().toISOString().split('T')[0] *)
  insert_error : option string;            (* insertError.message *)
  completed_update : UpdateResult;         (* the update to 'completed' *)
  failed_update : UpdateResult             (* the update to 'failed' *)
}.

(** [JSON.parse(content)]: [undefined] is read as the text "undefined",
    which is not JSON. *)
Definition JSON_parse (call : LLMCall) (content : value) : outcome json :=
  match content with
  | None => Throw "SyntaxError"
  | Some _ => parsed call
  end.

(** ** The traditional path *)

(** The loop over the form sections. *)
Fixpoint extract_forms (courseName : string) (formSections : list string)
  : list SurveyResponse :=
  match formSections with
  | [] => []
  | formText :: rest =>
      let extractedData := extractSurveyDataEnhanced formText courseName in
      (* Only add forms that have meaningful survey data *)
      if hasMeaningfulSurveyData extractedData
      then extractedData :: extract_forms courseName rest
      else extract_forms courseName rest
  end.

Definition traditional_body (w : World) (courseName : string)
  : outcome (list SurveyResponse) :=
  (* Method 1: Extract from PDF structure *)
  let extractedText := structure_text w in
  (* Method 2: If insufficient text, try OCR-like processing *)
  let extractedText :=
    if String.length extractedText <? 100 then ocr_like_text w else extractedText in
  (* Method 3: If still insufficient, try raw text extraction *)
  let extractedText :=
    if String.length extractedText <? 50 then raw_text w else extractedText in
  if (extractedText =? "")%string || (String.length extractedText <? 20)
  then Return []
  else
    let cleanedText := cleanAndNormalizeText extractedText in
    let formSections := splitIntoFormSections cleanedText in
    Return (extract_forms courseName formSections).

Definition processPDFWithTraditionalMethods (w : World) (courseName : string)
  : outcome (list SurveyResponse) :=
  try_catch (traditional_body w courseName) (fun _ => Return []).

(** ** The vision path *)

(** [result.choices[0]?.message?.content] *)
Definition vision_content (result : json) : outcome value :=
  choices <- member (Some result) (fun r => prop r "choices") ;;
  first <- member choices index0 ;;
  Return (optional (optional first (fun c => prop c "message"))
                   (fun m => prop m "content")).

(** The responses found in the parsed answer for one page: only an object
    with a [responses] array is looked at. *)
Definition page_responses (courseName : string) (pageData : json)
  : outcome (list SurveyResponse) :=
  responses <- member (Some pageData) (fun d => prop d "responses") ;;
  match responses with
  | Some (JArr items) => Return (validResponses courseName items)
  | _ => Return []
  end.

(** The loop over the pages. *)
Fixpoint vision_pages (courseName : string) (pages : list LLMCall)
  (allExtractedData : list SurveyResponse) : outcome (list SurveyResponse) :=
  match pages with
  | [] => Return allExtractedData
  | page :: rest =>
      openaiResponse <- fetched page ;;
      if negb (ok openaiResponse) then
        _error <- json_body openaiResponse ;;
        (* Skip this page and continue with others *)
        vision_pages courseName rest allExtractedData
      else
        result <- json_body openaiResponse ;;
        content <- vision_content result ;;
        found <- try_catch
                   (pageData <- JSON_parse page content ;;
                    page_responses courseName pageData)
                   (fun _parseError => Return []) ;;
        vision_pages courseName rest (allExtractedData ++ found)
  end.

Definition processPDFWithOpenAIVision (w : World) (courseName : string)
  : outcome (list SurveyResponse) :=
  try_catch
    (pages <- images w ;;
     vision_pages courseName pages [])
    (fun error => Throw error).

(** ** The text path *)

(** [result.choices?.[0]?.message?.content] *)
Definition text_content (result : json) : outcome value :=
  choices <- member (Some result) (fun r => prop r "choices") ;;
  Return (optional (optional (optional choices index0) (fun c => prop c "message"))
                   (fun m => prop m "content")).

(** "Handle different response formats". *)
Definition response_list (parsedData : json) : outcome (list json) :=
  match parsedData with
  | JArr items => Return items
  | _ =>
      responses <- member (Some parsedData) (fun d => prop d "responses") ;;
      match responses with
      | Some (JArr items) => Return items
      | _ =>
          match prop parsedData "surveys" with
          | Some (JArr items) => Return items
          | _ => Return [parsedData]     (* Single response object *)
          end
      end
  end.

(** The [try] block of [processPDFWithOpenAI]. *)
Definition openai_body (w : World) (courseName : string)
  : outcome (list SurveyResponse) :=
  let rawText := raw_text w in
  if appears_scanned rawText then
    (* Use OpenAI Vision for scanned documents *)
    processPDFWithOpenAIVision w courseName
  else
    openaiResponse <- fetched (text_call w) ;;
    result <- json_body openaiResponse ;;
    aiResponse <- text_content result ;;
    if negb (truthy aiResponse) then Throw "No response from OpenAI"
    else
      try_catch
        (parsedData <- JSON_parse (text_call w) aiResponse ;;
         responses <- response_list parsedData ;;
         Return (validResponses courseName responses))
        (fun _parseError => Throw "Failed to parse OpenAI response as JSON").

Definition processPDFWithOpenAI (w : World) (courseName : string)
  : outcome (list SurveyResponse) :=
  try_catch (openai_body w courseName)
    (fun _error =>
       (* Falling back to traditional extraction methods *)
       processPDFWithTraditionalMethods w courseName).

(** ** The database and the request handler *)

Inductive status : Type := pending | processing | completed | failed.

(** The row of [course_uploads] the request is about. *)
Record CourseUpload : Type := {
  upload_course_name : string;
  file_name : string;
  file_url : option string;
  created_by : option string;
  processing_status : status;
  total_forms : nat;
  processed_forms : nat
}.

(** A row of [survey_responses]: [{ upload_id: uploadId, ...form }]. *)
Record ResponseRow : Type := {
  upload_id : value;
  form : SurveyResponse
}.

(** The part of the database one run can touch: the upload with the
    requested id, if there is one, and the table of responses. *)
Record Database : Type := {
  course_uploads : option CourseUpload;
  survey_responses : list ResponseRow
}.

Inductive HttpResult : Type :=
| Preflight                                                   (* status 200, empty *)
| Processed (message : string) (formsProcessed : nat) (method : string)  (* status 200 *)
| Failed (error : string).                                    (* status 500 *)

(** A step of the handler: it may change the database and may throw. *)
Definition Run (A : Type) : Type := Database -> outcome A * Database.

Definition ret {A : Type} (a : A) : Run A := fun db => (Return a, db).

Definition raise {A : Type} (e : string) : Run A := fun db => (Throw e, db).

Definition lift {A : Type} (m : outcome A) : Run A := fun db => (m, db).

Definition and_then {A B : Type} (m : Run A) (k : A -> Run B) : Run B :=
  fun db =>
    match m db with
    | (Return a, db') => k a db'
    | (Throw e, db') => (Throw e, db')
    end.

Declare Scope run_scope.
Delimit Scope run_scope with run.
Notation "x <- m ;; k" := (and_then m (fun x => k))
  (at level 61, m at next level, right associativity) : run_scope.

(** [await from('course_uploads').update(change).eq('id', uploadId)]: when
    the update is applied the row with that id, if there is one, is changed.
    The handler does not look at what the call resolves with, so that a
    refused update goes unnoticed; a rejected call throws. *)
Definition update_upload (result : UpdateResult)
  (change : CourseUpload -> CourseUpload) : Run unit :=
  fun db =>
    match result with
    | Applied =>
        (Return tt,
         {| course_uploads := option_map change (course_uploads db);
            survey_responses := survey_responses db |})
    | Refused => (Return tt, db)
    | Rejected e => (Throw e, db)
    end.

(** [try { m } catch (updateError) { handler }] on a step of the handler. *)
Definition attempt (m : Run unit) (handler : string -> Run unit) : Run unit :=
  fun db =>
    match m db with
    | (Return a, db') => (Return a, db')
    | (Throw e, db') => handler e db'
    end.

Definition set_status (s : status) (u : CourseUpload) : CourseUpload :=
  {| upload_course_name := upload_course_name u;
     file_name := file_name u;
     file_url := file_url u;
     created_by := created_by u;
     processing_status := s;
     total_forms := total_forms u;
     processed_forms := processed_forms u |}.

Definition set_completed (total processed : nat) (u : CourseUpload) : CourseUpload :=
  {| upload_course_name := upload_course_name u;
     file_name := file_name u;
     file_url := file_url u;
     created_by := created_by u;
     processing_status := completed;
     total_forms := total;
     processed_forms := processed |}.

(** [from('course_uploads').select(...).eq('id', uploadId).single()] *)
Definition select_upload (w : World) : Run (option CourseUpload) :=
  fun db => (Return (if select_error w then None else course_uploads db), db).

(** [from('survey_responses').insert(rows)], giving [insertError]. *)
Definition insert_responses (w : World) (rows : list ResponseRow) : Run (option string) :=
  fun db =>
    match insert_error w with
    | Some e => (Return (Some e), db)
    | None =>
        (Return None,
         {| course_uploads := course_uploads db;
            survey_responses := survey_responses db ++ rows |})
    end.

(** A string that is neither missing nor empty. *)
Definition nonempty (s : option string) : bool :=
  match s with
  | Some t => negb (t =? "")%string
  | None => false
  end.

(** [a || b] on optional strings. *)
Definition or_else (a b : option string) : option string :=
  if nonempty a then a else b.

Definition storage_prefix : string := "/storage/v1/object/public/survey-pdfs/".

Definition nat_to_string (n : nat) : string :=
  NilEmpty.string_of_uint (Nat.to_uint n).

(** "Get user settings", then "Force OpenAI enabled for debugging". *)
Definition load_settings (w : World) (upload : CourseUpload) : UserSettings :=
  let empty := {| openai_api_key := None; openai_model := None; openai_enabled := false |} in
  let userSettings :=
    match user_settings w with
    | Some settings => if nonempty (created_by upload) then settings else empty
    | None => empty
    end in
  {| openai_api_key := openai_api_key userSettings;
     openai_model := openai_model userSettings;
     openai_enabled := true |}.

(** "Process PDF with enhanced extraction": the choice of the path. *)
Definition extraction (w : World) (userSettings : UserSettings) (courseName : string)
  : outcome (list SurveyResponse) :=
  if openai_enabled userSettings && nonempty (openai_api_key userSettings)
  then processPDFWithOpenAI w courseName
  else processPDFWithTraditionalMethods w courseName.

(** The placeholder [{ course_name, response_date }] of a run that found
    nothing. *)
Definition placeholderForm (w : World) (courseName : string) : SurveyResponse :=
  bare_response courseName (Some (JStr (today w))).

(** [if (extractedForms.length === 0) extractedForms.push(placeholderForm)] *)
Definition with_placeholder (w : World) (courseName : string)
  (extractedForms : list SurveyResponse) : list SurveyResponse :=
  match extractedForms with
  | [] => [placeholderForm w courseName]
  | _ => extractedForms
  end.

(** The [try] block of the handler. *)
Definition serve_body (w : World) : Run HttpResult :=
  (requestBody <- lift (req_json w) ;;
   let uploadId := reqUploadId requestBody in
   if negb (truthy uploadId) then raise "Missing uploadId"
   else
     (* Update status to processing *)
     _u <- update_upload (processing_update w) (set_status processing) ;;
     (* Get upload details *)
     found <- select_upload w ;;
     match found with
     | None => raise "Upload not found"
     | Some upload =>
         let userSettings := load_settings w upload in
         (* Use fileUrl from request or fallback to database *)
         match or_else (reqFileUrl requestBody) (file_url upload) with
         | None => raise "No file URL available"
         | Some fileUrl =>
             if (fileUrl =? "")%string then raise "No file URL available"
             else
               match split_lit storage_prefix fileUrl with
               | [_; filePath] =>
                   match download_error w with
                   | Some e => raise ("Failed to download PDF: " ++ e)%string
                   | None =>
                       if negb (download_data w)
                       then raise "No PDF data received from storage"
                       else
                         (* Process PDF with enhanced extraction *)
                         extractedForms <-
                           lift (extraction w userSettings (upload_course_name upload)) ;;
                         let extractedForms :=
                           with_placeholder w (upload_course_name upload) extractedForms in
                         (* Insert responses into database *)
                         let responsesToInsert :=
                           map (fun f => {| upload_id := uploadId; form := f |})
                               extractedForms in
                         insertError <- insert_responses w responsesToInsert ;;
                         match insertError with
                         | Some e => raise e
                         | None =>
                             (* Update upload status to completed *)
                             _c <- update_upload (completed_update w)
                                     (set_completed (List.length extractedForms)
                                                    (List.length extractedForms)) ;;
                             ret (Processed
                                    ("Successfully processed "
                                       ++ nat_to_string (List.length extractedForms)
                                       ++ " survey responses")%string
                                    (List.length extractedForms)
                                    (if openai_enabled userSettings
                                     then "OpenAI" else "Traditional"))
                         end
                   end
               | _ => raise "Invalid file URL format"
               end
         end
     end)%run.

(** The value of the variable [uploadId] when the [catch] block runs. *)
Definition uploadId_seen (w : World) : value :=
  match req_json w with
  | Return requestBody => reqUploadId requestBody
  | Throw _ => undefined
  end.

(** The handler given to [Deno.serve]: the answer and the database after
    the run. *)
Definition serve (w : World) (db : Database) : HttpResult * Database :=
  if (req_method w =? "OPTIONS")%string then (Preflight, db)
  else
    match serve_body w db with
    | (Return answer, db') => (answer, db')
    | (Throw e, db') =>
        (* Update status to failed if we have uploadId *)
        let db'' :=
          if truthy (uploadId_seen w)
          then snd (attempt (update_upload (failed_update w) (set_status failed))
                            (fun _updateError => ret tt) db')
          else db' in
        (Failed (if (e =? "")%string then "Processing failed" else e), db'')
    end.

(** ** Notions used to state the properties *)

(** What the loop over the separators keeps true of [sections]. *)
Definition sections_ok (text : string) (sections : list string) : Prop :=
  sections <> []
  /\ (sections = [text] \/ Forall (fun s => long_enough s = true) sections).

(** The ten rating fields of a response. *)
Definition rating_fields (r : SurveyResponse) : list value :=
  [ q1_rating r; q2_rating r; q3_rating r; q4_rating r; q5_rating r;
    q6_rating r; q7_rating r; q8_rating r; q9_rating r; q10_rating r ].

(** The seven text fields that [hasMeaningfulSurveyData] reads. *)
Definition counted_text_fields (r : SurveyResponse) : list field :=
  [ learned_1 r; learned_2 r; learned_3 r; suggestions r; comments r;
    q11_expectations r; q12_overall_rating r ].

(** The eight text fields of the data model: the two overall-rating texts,
    the three "what was learned" texts, and the suggestions, comments and
    interest texts. *)
Definition text_fields (r : SurveyResponse) : list field :=
  [ q11_expectations r; q12_overall_rating r; learned_1 r; learned_2 r;
    learned_3 r; suggestions r; comments r; interested_more r ].

(** The four contact fields. *)
Definition contact_fields (r : SurveyResponse) : list field :=
  [ participant_name r; company r; email r; phone r ].

(** The retention rule in the words of the specification: a non-null
    rating, or a text field of length above 5, or a non-empty contact field. *)
Definition rule_as_stated (r : SurveyResponse) : Prop :=
  (exists v, In v (rating_fields r) /\ present v = true)
  \/ (exists s, In (FStr s) (text_fields r) /\ 5 < String.length s)
  \/ (exists s, In (FStr s) (contact_fields r) /\ s <> "").

(** The retention rule of the code. *)
Definition rule_of_code (r : SurveyResponse) : Prop :=
  (exists v, In v (rating_fields r) /\ v <> None /\ v <> Some JNull)
  \/ (exists s, In (FStr s) (counted_text_fields r) /\ 5 < String.length (trim s))
  \/ (exists s, In (FStr s) (contact_fields r) /\ 0 < String.length (trim s)).

(** A response whose fields other than the course name are all [null]. *)
Definition null_response (c : string) : SurveyResponse :=
  mkSurveyResponse c (Some JNull)
    (Some JNull) (Some JNull) (Some JNull) (Some JNull) (Some JNull)
    (Some JNull) (Some JNull) (Some JNull) (Some JNull) (Some JNull)
    FNull FNull FNull FNull FNull FNull FNull FNull FNull FNull FNull FNull.

(** An element of an LLM answer that only says what more the participant is
    interested in, and the candidate made of it. *)
Definition interest_only_json : json :=
  JObj [("interested_more", JStr "Advanced leadership")].

Definition interest_only : SurveyResponse :=
  clean_response "Leadership 101" interest_only_json.

(** [lo <= r <= hi] on numbers. *)
Definition in_range (lo hi : Q) (r : number) : bool :=
  num_le (Num lo) r && num_le r (Num hi).

(** A string made of an optional sign and one or more decimal digits. *)
Definition is_integer_literal (s : string) : bool :=
  let '(_, digits) := read_sign s in
  negb (digits =? "")%string && forallb is_digit (list_ascii_of_string digits).

(** A string of decimal digits. *)
Definition all_digits (d : string) : Prop :=
  forallb is_digit (list_ascii_of_string d) = true.

(** ** Example runs *)

(** [s.repeat(n)] *)
Fixpoint repeat_text (n : nat) (s : string) : string :=
  match n with
  | O => EmptyString
  | S n' => (s ++ repeat_text n' s)%string
  end.

(** A raw text with a stream marker and exactly fifty words of four letters
    or more: "stream word word ... word". *)
Definition fifty_words_text : string :=
  ("stream" ++ repeat_text 49 " word")%string.

(** One participant's block: a name and the ratings of Q1 to Q9. *)
Definition survey_block (name : string) : string :=
  ("Name: " ++ name ++ " Q1: 5 Q2: 4 Q3: 5 Q4: 4 Q5: 3 Q6: 4 Q7: 5 Q8: 4 Q9: 5 ")%string.

(** Scenario C: three repeated "Name:" blocks. *)
Definition three_names_text : string :=
  (survey_block "Alice Smith" ++ survey_block "Bob Jones" ++ survey_block "Carol White")%string.

(** What is left of an image-only PDF by the raw decoding. *)
Definition image_only_text : string :=
  "obj Type XObject Subtype Image Filter DCTDecode stream endstream endobj".

(** A double quote, and a quoted name or text of a JSON document. *)
Definition dq : string := String (ascii_of_nat 34) EmptyString.
Definition quoted (s : string) : string := (dq ++ s ++ dq)%string.

(** The body of a chat completion whose message has this content. *)
Definition chat_answer (content : string) : json :=
  JObj [("choices",
         JArr [JObj [("index", JNum (Num 0));
                     ("message", JObj [("role", JStr "assistant");
                                       ("content", JStr content)])]])].

(** A call answered with status 200 and this content, which parses as
    [document]. *)
Definition answered (content : string) (document : json) : LLMCall :=
  {| fetched := Return {| ok := true; json_body := Return (chat_answer content) |};
     parsed := Return document |}.

(** A call whose [fetch] is rejected. *)
Definition unreachable : LLMCall :=
  {| fetched := Throw "error sending request"; parsed := Throw "SyntaxError" |}.

(** Bob's form as the LLM words it, and the four documents that carry it. *)
Definition bob_text : string :=
  ("{" ++ quoted "participant_name" ++ ":" ++ quoted "Bob Jones" ++ ","
       ++ quoted "q1_rating" ++ ":4}")%string.

Definition bob_json : json :=
  JObj [("participant_name", JStr "Bob Jones"); ("q1_rating", JNum (Num 4))].

Definition in_responses : LLMCall :=
  answered ("{" ++ quoted "responses" ++ ":[" ++ bob_text ++ "]}")
           (JObj [("responses", JArr [bob_json])]).

Definition in_surveys : LLMCall :=
  answered ("{" ++ quoted "surveys" ++ ":[" ++ bob_text ++ "]}")
           (JObj [("surveys", JArr [bob_json])]).

Definition bare_array : LLMCall :=
  answered ("[" ++ bob_text ++ "]") (JArr [bob_json]).

Definition bare_object : LLMCall := answered bob_text bob_json.

(** An answer that finds nothing: [{"responses":[]}]. *)
Definition nothing_found : LLMCall :=
  answered ("{" ++ quoted "responses" ++ ":[]}") (JObj [("responses", JArr [])]).

Definition stored_settings : UserSettings :=
  {| openai_api_key := Some "sk-example"; openai_model := None; openai_enabled := false |}.

(** A POST for the upload "upload-1" whose file downloads and whose updates
    of the upload are applied; the texts found in the file, the answers of
    the LLM and the result of the insert vary. *)
Definition example_world (structure raw : string) (call : LLMCall)
  (pages : outcome (list LLMCall)) (insertError : option string) : World :=
  {| req_method := "POST";
     req_json := Return {| reqUploadId := Some (JStr "upload-1"); reqFileUrl := None |};
     processing_update := Applied;
     select_error := false;
     user_settings := Some stored_settings;
     download_error := None;
     download_data := true;
     structure_text := structure;
     ocr_like_text := EmptyString;
     raw_text := raw;
     text_call := call;
     images := pages;
     today := "2025-06-28";
     insert_error := insertError;
     completed_update := Applied;
     failed_update := Applied |}.

Definition example_upload : CourseUpload :=
  {| upload_course_name := "Leadership 101";
     file_name := "forms.pdf";
     file_url := Some "https://project.supabase.co/storage/v1/object/public/survey-pdfs/uploads/forms.pdf";
     created_by := Some "user-1";
     processing_status := pending;
     total_forms := 0;
     processed_forms := 0 |}.

Definition example_db : Database :=
  {| course_uploads := Some example_upload; survey_responses := [] |}.

(** A raw text that reads as plain prose. *)
Definition readable_text : string :=
  "Participant feedback for the leadership course. The trainer was well prepared and the sessions were relevant to my daily work.".

(** A run that gets as far as the extraction: a POST whose body names an
    upload, the update to 'processing' is not rejected, the upload is found,
    its file URL has the storage prefix once, and the file downloads. *)
Definition reaches_extraction (w : World) (db : Database) (body : RequestBody)
  (upload : CourseUpload) : Prop :=
  (req_method w =? "OPTIONS")%string = false
  /\ req_json w = Return body
  /\ truthy (reqUploadId body) = true
  /\ select_error w = false
  /\ course_uploads db = Some upload
  /\ (exists fileUrl before filePath,
         or_else (reqFileUrl body) (file_url upload) = Some fileUrl
         /\ (fileUrl =? "")%string = false
         /\ split_lit storage_prefix fileUrl = [before; filePath])
  /\ download_error w = None
  /\ download_data w = true
  /\ (forall e, processing_update w <> Rejected e).

(** The rows inserted for these forms. *)
Definition rows_of (uploadId : value) (forms : list SurveyResponse) : list ResponseRow :=
  map (fun f => {| upload_id := uploadId; form := f |}) forms.

(** The database after an update with this result. *)
Definition after_update (result : UpdateResult)
  (change : CourseUpload -> CourseUpload) (db : Database) : Database :=
  snd (update_upload result change db).

(** The database once the update to 'processing' has been tried. *)
Definition marked_processing (w : World) (db : Database) : Database :=
  after_update (processing_update w) (set_status processing) db.

(** The database with these rows inserted. *)
Definition with_rows (db : Database) (rows : list ResponseRow) : Database :=
  {| course_uploads := course_uploads db;
     survey_responses := survey_responses db ++ rows |}.

(** The database after a run that threw before it inserted anything, the
    request naming an upload. *)
Definition marked_failed (w : World) (db : Database) : Database :=
  after_update (failed_update w) (set_status failed) (marked_processing w db).

(** The database after a run that inserted these forms and whose update to
    'completed' was not rejected. *)
Definition marked_completed (w : World) (db : Database) (uploadId : value)
  (forms : list SurveyResponse) : Database :=
  after_update (completed_update w)
               (set_completed (List.length forms) (List.length forms))
               (with_rows (marked_processing w db) (rows_of uploadId forms)).

(** The database after a run that inserted these forms and whose update to
    'completed' was rejected. *)
Definition failed_after_insert (w : World) (db : Database) (uploadId : value)
  (forms : list SurveyResponse) : Database :=
  after_update (failed_update w) (set_status failed)
               (with_rows (marked_processing w db) (rows_of uploadId forms)).

Definition status_of (db : Database) : option status :=
  option_map processing_status (course_uploads db).

(** A run on a readable file whose LLM call is answered with [call]. *)
Definition text_run (call : LLMCall) (insertError : option string) : World :=
  example_world readable_text readable_text call (Throw "no pages") insertError.

(** The body of the request of the example runs. *)
Definition example_body : RequestBody :=
  {| reqUploadId := Some (JStr "upload-1"); reqFileUrl := None |}.

(** ** Further notions *)

(** A text field as the value it is in the JSON form of a response. *)
Definition field_value (f : field) : value :=
  match f with
  | FUndefined => None
  | FNull => Some JNull
  | FStr s => Some (JStr s)
  end.

(** [sections] of [splitIntoFormSections] just before [sections.slice(0, 50)]. *)
Definition sections_before_slice (splitters : list (string -> list string))
  (text : string) : list string :=
  let sections := fold_left split_round splitters [text] in
  if 15 <? List.length sections then merge_sections "" sections else sections.


(** The same run, the stored [openai_enabled] setting being [flag]. *)
Definition with_enabled (flag : bool) (w : World) : World :=
  {| req_method := req_method w;
     req_json := req_json w;
     processing_update := processing_update w;
     select_error := select_error w;
     user_settings :=
       option_map (fun settings =>
                     {| openai_api_key := openai_api_key settings;
                        openai_model := openai_model settings;
                        openai_enabled := flag |})
                  (user_settings w);
     download_error := download_error w;
     download_data := download_data w;
     structure_text := structure_text w;
     ocr_like_text := ocr_like_text w;
     raw_text := raw_text w;
     text_call := text_call w;
     images := images w;
     today := today w;
     insert_error := insert_error w;
     completed_update := completed_update w;
     failed_update := failed_update w |}.

(** What a run may do to the upload [u]: nothing; or mark it as processing
    or as failed and keep its counts; or mark it as completed with both
    counts equal and at least 1. *)
Definition upload_outcome (u u' : CourseUpload) : Prop :=
  u' = u
  \/ ((processing_status u' = processing \/ processing_status u' = failed)
      /\ total_forms u' = total_forms u /\ processed_forms u' = processed_forms u)
  \/ (processing_status u' = completed
      /\ total_forms u' = processed_forms u' /\ 1 <= total_forms u').

(** The same run, the database answering the three updates of the upload
    in these ways. *)
Definition with_updates (to_processing to_completed to_failed : UpdateResult)
  (w : World) : World :=
  {| req_method := req_method w;
     req_json := req_json w;
     processing_update := to_processing;
     select_error := select_error w;
     user_settings := user_settings w;
     download_error := download_error w;
     download_data := download_data w;
     structure_text := structure_text w;
     ocr_like_text := ocr_like_text w;
     raw_text := raw_text w;
     text_call := text_call w;
     images := images w;
     today := today w;
     insert_error := insert_error w;
     completed_update := to_completed;
     failed_update := to_failed |}.

(** The same run, the download of the file failing with this message. *)
Definition with_download_error (e : string) (w : World) : World :=
  {| req_method := req_method w;
     req_json := req_json w;
     processing_update := processing_update w;
     select_error := select_error w;
     user_settings := user_settings w;
     download_error := Some e;
     download_data := download_data w;
     structure_text := structure_text w;
     ocr_like_text := ocr_like_text w;
     raw_text := raw_text w;
     text_call := text_call w;
     images := images w;
     today := today w;
     insert_error := insert_error w;
     completed_update := completed_update w;
     failed_update := failed_update w |}.

(** A run whose download fails and whose update to 'failed' is refused. *)
Definition stuck_run : World :=
  with_updates Applied Applied Refused
               (with_download_error "not found" (text_run nothing_found None)).

(** Every code unit of [s] satisfies [p]. *)
Fixpoint every (p : ascii -> bool) (s : string) : bool :=
  match s with
  | EmptyString => true
  | String c t => p c && every p t
  end.

(** [s] with [f] applied to each code unit. *)
Fixpoint smap (f : ascii -> ascii) (s : string) : string :=
  match s with
  | EmptyString => EmptyString
  | String c t => String (f c) (smap f t)
  end.

(** What a pattern matches: [matches r prev m rest] when [r] matches the
    text [m] at a position where [prev] is the code unit before and [rest]
    is what follows [m] in the subject. *)
Inductive matches : regex -> option ascii -> string -> string -> Prop :=
| matches_eps prev rest : matches Eps prev EmptyString rest
| matches_chr (p : ascii -> bool) c prev rest :
    p c = true -> matches (Chr p) prev (String c EmptyString) rest
| matches_cat r1 r2 prev m1 m2 rest :
    matches r1 prev m1 (m2 ++ rest) ->
    matches r2 (last_char m1 prev) m2 rest ->
    matches (Cat r1 r2) prev (m1 ++ m2) rest
| matches_alt_l r1 r2 prev m rest :
    matches r1 prev m rest -> matches (Alt r1 r2) prev m rest
| matches_alt_r r1 r2 prev m rest :
    matches r2 prev m rest -> matches (Alt r1 r2) prev m rest
| matches_star_nil r prev rest : matches (Star r) prev EmptyString rest
| matches_star_cons r prev m1 m2 rest :
    matches r prev m1 (m2 ++ rest) ->
    matches (Star r) (last_char m1 prev) m2 rest ->
    matches (Star r) prev (m1 ++ m2) rest
| matches_bol rest : matches Bol None EmptyString rest
| matches_eol prev : matches Eol prev EmptyString EmptyString
| matches_wordb prev rest :
    xorb (is_word_opt prev) (is_word_opt (head_char rest)) = true ->
    matches WordB prev EmptyString rest.

(** The classes of the pattern do not tell [c] from [f c]. *)
Fixpoint respects (f : ascii -> ascii) (r : regex) : Prop :=
  match r with
  | Chr p => forall c, p (f c) = p c
  | Cat r1 r2 => respects f r1 /\ respects f r2
  | Alt r1 r2 => respects f r1 /\ respects f r2
  | Star r1 => respects f r1
  | _ => True
  end.

(** A code unit that is neither white space nor [@]. *)
Definition email_char (c : ascii) : bool := negb (is_space c || Ascii.eqb c "@").

(** A non-empty run of such code units. *)
Definition email_part (s : string) : Prop :=
  s <> EmptyString /\ every email_char s = true.

(** A printable ASCII code unit, U+0020 to U+007E. *)
Definition printable (c : ascii) : bool := (32 <=? code c) && (code c <=? 126).

(** A value read back from a stored row: a missing value reads as null. *)
Definition value_json (v : value) : json :=
  match v with
  | Some j => j
  | None => JNull
  end.

(** A response as the row read back from [survey_responses]. *)
Definition response_json (r : SurveyResponse) : json :=
  JObj [ ("course_name", JStr (course_name r));
         ("response_date", value_json (response_date r));
         ("q1_rating", value_json (q1_rating r));
         ("q2_rating", value_json (q2_rating r));
         ("q3_rating", value_json (q3_rating r));
         ("q4_rating", value_json (q4_rating r));
         ("q5_rating", value_json (q5_rating r));
         ("q6_rating", value_json (q6_rating r));
         ("q7_rating", value_json (q7_rating r));
         ("q8_rating", value_json (q8_rating r));
         ("q9_rating", value_json (q9_rating r));
         ("q10_rating", value_json (q10_rating r));
         ("q11_expectations", value_json (field_value (q11_expectations r)));
         ("q12_overall_rating", value_json (field_value (q12_overall_rating r)));
         ("learned_1", value_json (field_value (learned_1 r)));
         ("learned_2", value_json (field_value (learned_2 r)));
         ("learned_3", value_json (field_value (learned_3 r)));
         ("suggestions", value_json (field_value (suggestions r)));
         ("comments", value_json (field_value (comments r)));
         ("interested_more", value_json (field_value (interested_more r)));
         ("participant_name", value_json (field_value (participant_name r)));
         ("company", value_json (field_value (company r)));
         ("email", value_json (field_value (email r)));
         ("phone", value_json (field_value (phone r))) ].

(** What the validation ensures of a rating: it is missing, or null, or a
    value other than a string that [Number] reads as a number within the
    bounds.  The value is kept as it came: it need not be a whole number,
    nor a number at all, so that [4.5], [true] and [[3]] pass for 1..5. *)
Definition rating_ok (lo hi : Q) (v : value) : Prop :=
  match v with
  | None => True
  | Some JNull => True
  | Some j => in_range lo hi (ToNumber j) = true /\ forall s, j <> JStr s
  end.

(** A text that is missing, null, or a trimmed string of 1 to 1000 code
    units. *)
Definition text_ok (f : field) : Prop :=
  match f with
  | FStr t => trim t = t /\ 1 <= String.length t <= 1000
  | _ => True
  end.

(** An address that is missing, null, or a lower-case string that
    [emailRegex] accepts. *)
Definition email_ok (f : field) : Prop :=
  match f with
  | FStr e => toLowerCase e = e /\ test emailRegex e = true
  | _ => True
  end.

(** The texts other than the address. *)
Definition plain_text_fields (r : SurveyResponse) : list field :=
  [ q11_expectations r; q12_overall_rating r; learned_1 r; learned_2 r;
    learned_3 r; suggestions r; comments r; interested_more r;
    participant_name r; company r; phone r ].

(** What the validation ensures of a response: each Likert rating passes
    for 1..5 and the recommendation for 0..10, in the sense of [rating_ok];
    the texts are trimmed and of 1 to 1000 code units; the address is in
    lower case and of the address shape; each of them may be missing or
    null. *)
Definition well_formed (r : SurveyResponse) : Prop :=
  Forall (rating_ok 1 5)
         [ q1_rating r; q2_rating r; q3_rating r; q4_rating r; q5_rating r;
           q6_rating r; q7_rating r; q8_rating r; q9_rating r ]
  /\ rating_ok 0 10 (q10_rating r)
  /\ Forall text_ok (plain_text_fields r)
  /\ email_ok (email r).

(** Every rating and every text of [r] is set, be it to null. *)
Definition all_set (r : SurveyResponse) : Prop :=
  Forall (fun v : value => v <> undefined) (rating_fields r)
  /\ Forall (fun f : field => f <> FUndefined) (email r :: plain_text_fields r).

(** What holds of every response that the LLM paths return for the course
    [c]. *)
Definition extracted_ok (c : string) (r : SurveyResponse) : Prop :=
  course_name r = c /\ well_formed r /\ all_set r
  /\ hasMeaningfulSurveyData r = true.

(** The code units of [\w]. *)
Definition word_chars : list ascii :=
  list_ascii_of_string
    "ABCDEFGHIJKLMNOPQRSTUVWXYZabcdefghijklmnopqrstuvwxyz0123456789_".

(** [/\b(\w)\1{3,}\b/g]: a word made of one code unit repeated four times
    or more.  The back-reference is spelled out: for each code unit [c] of
    [\w], [c] followed by [c{3,}]. *)
Definition repeated_re : regex :=
  seq [WordB;
       alt (map (fun c => seq [chr c; at_least 3 (chr c)]) word_chars);
       WordB].

Definition cleanExtractedText (text : string) : string :=
  trim
    (replace_all repeated_re (fun _ => EmptyString)
       (replace_all (Chr (fun c => negb ((32 <=? code c) && (code c <=? 126))))
          one_space
          (collapse_spaces text))).

(** The API key the handler finds for the upload of the request. *)
Definition stored_key (w : World) (db : Database) : option string :=
  match course_uploads db with
  | Some upload => openai_api_key (load_settings w upload)
  | None => None
  end.

(** The same run when the user has no row in [user_settings]. *)
Definition no_settings (w : World) : World :=
  {| req_method := req_method w;
     req_json := req_json w;
     processing_update := processing_update w;
     select_error := select_error w;
     user_settings := None;
     download_error := download_error w;
     download_data := download_data w;
     structure_text := structure_text w;
     ocr_like_text := ocr_like_text w;
     raw_text := raw_text w;
     text_call := text_call w;
     images := images w;
     today := today w;
     insert_error := insert_error w;
     completed_update := completed_update w;
     failed_update := failed_update w |}.

(** * Properties *)

(** ** Form sections *)

Section Trim.

Lemma trimEnd_app_length (a b : string) :
  String.length (trimEnd b) <= String.length (trimEnd (a ++ b)).
Proof.
  induction a as [|c a IH]; simpl.
  - apply Nat.le_refl.
  - destruct (trimEnd (a ++ b)) eqn:E.
    + simpl in IH. destruct (is_space c); simpl; lia.
    + simpl in *. lia.
Qed.

Lemma trimStart_suffix (s : string) :
  exists spaces, s = (spaces ++ trimStart s)%string.
Proof.
  induction s as [|c s [spaces IH]]; simpl.
  - exists EmptyString. reflexivity.
  - destruct (is_space c).
    + exists (String c spaces). simpl. now rewrite <- IH.
    + exists EmptyString. reflexivity.
Qed.

Lemma trimStart_app (a b : string) :
  trimStart (a ++ b) = trimStart b
  \/ exists a', trimStart (a ++ b) = (a' ++ b)%string.
Proof.
  induction a as [|c a IH]; simpl.
  - now left.
  - destruct (is_space c).
    + exact IH.
    + right. exists (String c a). reflexivity.
Qed.

(** Text put in front of a string never makes its trimmed form shorter. *)
Lemma trim_app_length (a b : string) :
  String.length (trim b) <= String.length (trim (a ++ b)).
Proof.
  unfold trim.
  destruct (trimStart_app a b) as [E | [a' E]]; rewrite E.
  - apply Nat.le_refl.
  - destruct (trimStart_suffix b) as [spaces Hb].
    apply Nat.le_trans with (String.length (trimEnd b)).
    + rewrite Hb at 2. apply trimEnd_app_length.
    + apply trimEnd_app_length.
Qed.

Lemma long_enough_app (a b : string) :
  long_enough b = true -> long_enough (a ++ " " ++ b) = true.
Proof.
  unfold long_enough. rewrite !Nat.ltb_lt. intros H.
  eapply Nat.lt_le_trans; [exact H|].
  apply Nat.le_trans with (String.length (trim (" " ++ b))).
  - apply Nat.le_refl.
  - apply trim_app_length.
Qed.

End Trim.

Section Segmenter.

Variable splitters : list (string -> list string).

Lemma split_round_ok (text : string) (sections : list string)
      (splitter : string -> list string) :
  sections_ok text sections -> sections_ok text (split_round sections splitter).
Proof.
  intros [Hne Hshape]. unfold split_round.
  set (newSections := flat_map _ sections).
  destruct ((List.length sections <? List.length newSections)
            && (List.length newSections <=? 50)) eqn:E.
  - apply andb_true_iff in E as [E1 _]. apply Nat.ltb_lt in E1.
    split.
    + intros Hnil. rewrite Hnil in E1. simpl in E1. lia.
    + right. apply Forall_forall. intros s Hs.
      apply in_flat_map in Hs as [section [_ Hs]].
      apply filter_In in Hs. tauto.
  - split; assumption.
Qed.

Lemma fold_split_round_ok (text : string) (ss : list (string -> list string)) :
  forall sections,
    sections_ok text sections ->
    sections_ok text (fold_left split_round ss sections).
Proof.
  induction ss as [|sp ss IH]; simpl; intros sections H.
  - exact H.
  - apply IH. now apply split_round_ok.
Qed.

Lemma merge_sections_nonempty (sections : list string) :
  forall currentSection,
    Forall (fun s => long_enough s = true) sections ->
    sections <> [] \/ long_enough currentSection = true ->
    merge_sections currentSection sections <> [].
Proof.
  induction sections as [|section rest IH]; simpl; intros cur Hall Hor.
  - destruct Hor as [Hne | Hcur]; [congruence|].
    rewrite Hcur. discriminate.
  - inversion Hall as [|? ? Hsec Hrest]; subst.
    destruct (String.length cur + String.length section <? 1500).
    + apply IH; [assumption|]. right. now apply long_enough_app.
    + intros Happ. apply app_eq_nil in Happ as [_ Hm].
      revert Hm. apply IH; [assumption|]. now right.
Qed.

Lemma form_sections_by_bounds (text : string) :
  List.length (form_sections_by splitters text) <= 50
  /\ form_sections_by splitters text <> [].
Proof.
  unfold form_sections_by.
  assert (Hok : sections_ok text (fold_left split_round splitters [text])).
  { apply fold_split_round_ok. split; [discriminate | now left]. }
  set (sections := fold_left split_round splitters [text]) in *.
  split.
  - rewrite length_firstn. apply Nat.le_min_l.
  - destruct Hok as [Hne Hshape].
    assert (Hfirst : forall l : list string, l <> [] -> firstn 50 l <> []).
    { intros [|x l] Hl; [congruence | simpl; discriminate]. }
    apply Hfirst.
    destruct (15 <? List.length sections) eqn:E.
    + apply Nat.ltb_lt in E.
      apply merge_sections_nonempty; [|now left].
      destruct Hshape as [Hone | Hall]; [|exact Hall].
      rewrite Hone in E. simpl in E. lia.
    + exact Hne.
Qed.

End Segmenter.

(** C9. For every input text [splitIntoFormSections] returns at most 50
    sections, and for every non-empty input text the list it returns is not
    empty. *)
Theorem splitIntoFormSections_bounds :
  forall text : string,
    List.length (splitIntoFormSections text) <= 50
    /\ (text <> "" -> splitIntoFormSections text <> []).
Proof.
  intros text. unfold splitIntoFormSections.
  destruct (form_sections_by_bounds (map split separators) text) as [Hle Hne].
  split; [exact Hle | intros _; exact Hne].
Qed.

(** ** The meaningful-data filter *)

Lemma present_spec (v : value) :
  present v = true <-> v <> None /\ v <> Some JNull.
Proof.
  destruct v as [[| | | | |]|]; simpl; split; intros H;
    try (split; discriminate); try discriminate; try reflexivity;
    destruct H as [H1 H2]; congruence.
Qed.

Lemma trimmed_longer_than_spec (n : nat) (f : field) :
  trimmed_longer_than n f = true
  <-> exists s, f = FStr s /\ n < String.length (trim s).
Proof.
  destruct f as [| |s]; simpl.
  - split; [discriminate | intros [s [H _]]; discriminate].
  - split; [discriminate | intros [s [H _]]; discriminate].
  - rewrite andb_true_iff, Nat.ltb_lt. split.
    + intros [_ H]. exists s. now split.
    + intros [s' [E H]]. injection E as <-. split; [|exact H].
      destruct s; [simpl in H; lia | reflexivity].
Qed.

Lemma some_text_spec (n : nat) (fields : list field) :
  existsb (trimmed_longer_than n) fields = true
  <-> exists s, In (FStr s) fields /\ n < String.length (trim s).
Proof.
  rewrite existsb_exists. split.
  - intros [f [Hin Hf]]. apply trimmed_longer_than_spec in Hf as [s [-> Hs]].
    exists s. now split.
  - intros [s [Hin Hs]]. exists (FStr s). split; [exact Hin|].
    apply trimmed_longer_than_spec. exists s. now split.
Qed.

Lemma hasMeaningfulSurveyData_iff (r : SurveyResponse) :
  hasMeaningfulSurveyData r = true <-> rule_of_code r.
Proof.
  unfold hasMeaningfulSurveyData, rule_of_code.
  fold (rating_fields r) (counted_text_fields r) (contact_fields r).
  rewrite !orb_true_iff, !some_text_spec, existsb_exists.
  assert (Hr : (exists v, In v (rating_fields r) /\ present v = true)
               <-> (exists v, In v (rating_fields r) /\ v <> None /\ v <> Some JNull)).
  { split; intros [v [Hin Hv]]; exists v; (split; [exact Hin|]);
      now apply present_spec. }
  rewrite Hr. tauto.
Qed.

Lemma extract_forms_In (c : string) (sections : list string) (r : SurveyResponse) :
  In r (extract_forms c sections)
  <-> (exists t, In t sections /\ r = extractSurveyDataEnhanced t c)
      /\ hasMeaningfulSurveyData r = true.
Proof.
  induction sections as [|t rest IH]; simpl.
  - split; [tauto | intros [[t [[] _]] _]].
  - (* the section [t] gives a response with nothing but the course name *)
    rewrite IH. split.
    + intros [[t' [Hin ->]] Hm].
      split; [exists t'; split; [now right | reflexivity] | exact Hm].
    + intros [[t' [[<- | Hin] ->]] Hm].
      * discriminate Hm.
      * split; [exists t'; now split | exact Hm].
Qed.

(** C1, as the code has it.  [hasMeaningfulSurveyData] is true exactly when
    one of the ten ratings is neither null nor undefined, or one of the
    seven texts [learned_1..3], [suggestions], [comments], [q11_expectations],
    [q12_overall_rating] has more than 5 code units once trimmed, or one of
    the four contact fields is not empty once trimmed; it is false on a
    response whose fields are all null or all missing; and the candidates
    kept by the LLM paths and by the traditional path are exactly those on
    which it is true. *)
Theorem hasMeaningfulSurveyData_rule :
  (forall r, hasMeaningfulSurveyData r = true <-> rule_of_code r)
  /\ (forall c, hasMeaningfulSurveyData (null_response c) = false)
  /\ (forall c d, hasMeaningfulSurveyData (bare_response c d) = false)
  /\ (forall c candidates r,
        In r (validResponses c candidates)
        <-> (exists j, In j candidates /\ is_object j = true /\ r = clean_response c j)
            /\ hasMeaningfulSurveyData r = true)
  /\ (forall c sections r,
        In r (extract_forms c sections)
        <-> (exists t, In t sections /\ r = extractSurveyDataEnhanced t c)
            /\ hasMeaningfulSurveyData r = true).
Proof.
  split; [exact hasMeaningfulSurveyData_iff|].
  split; [reflexivity|].
  split; [reflexivity|].
  split; [|exact extract_forms_In].
  intros c candidates r. unfold validResponses.
  rewrite filter_In, in_map_iff. split.
  - intros [[j [<- Hj]] Hm]. apply filter_In in Hj as [Hin Hobj].
    split; [exists j; repeat split; assumption | exact Hm].
  - intros [[j [Hin [Hobj ->]]] Hm].
    split; [exists j; split; [reflexivity | now apply filter_In] | exact Hm].
Qed.

(** C1, as stated, fails: a candidate whose only content is a text of 19
    code units in [interested_more] has a text field longer than 5, and is
    discarded. *)
Lemma interest_only_not_retained :
  hasMeaningfulSurveyData interest_only = false
  /\ rule_as_stated interest_only
  /\ validResponses "Leadership 101" [interest_only_json] = [].
Proof.
  split; [reflexivity|]. split; [|reflexivity].
  right; left. exists "Advanced leadership". split.
  - vm_compute. do 7 right. left. reflexivity.
  - vm_compute. lia.
Qed.

(** ** Rating validation *)

Lemma validateRating_number (r : number) (lo hi : Q) :
  validateRating (Some (JNum r)) (Num lo) (Num hi)
  = if in_range lo hi r then JNum r else JNull.
Proof.
  unfold validateRating, in_range, isNaN, num_gt.
  destruct r as [|[|]|q]; simpl; try reflexivity.
  destruct (Qle_bool lo q), (Qle_bool q hi); reflexivity.
Qed.

Lemma validateRating_string (s : string) (lo hi : Q) :
  validateRating (Some (JStr s)) (Num lo) (Num hi)
  = if (s =? "")%string then JNull
    else if in_range lo hi (parseInt s) then JNum (parseInt s) else JNull.
Proof.
  destruct s as [|c t]; [reflexivity|].
  change ((String c t =? "")%string) with false. cbv iota.
  rewrite <- validateRating_number. reflexivity.
Qed.

Section IntegerLiterals.

Lemma digit_differs (c p : ascii) :
  is_digit c = true -> is_digit p = false -> Ascii.eqb p c = false.
Proof.
  intros Hc Hp. destruct (Ascii.eqb p c) eqn:E; [|reflexivity].
  apply Ascii.eqb_eq in E. subst. congruence.
Qed.

Lemma digit_not_space (c : ascii) : is_digit c = true -> is_space c = false.
Proof.
  unfold is_digit, is_space. intros H.
  apply andb_true_iff in H as [H1 H2]. apply Nat.leb_le in H1, H2.
  destruct (code c <=? 13) eqn:A; [apply Nat.leb_le in A; lia|].
  destruct (code c =? 32) eqn:B; [apply Nat.eqb_eq in B; lia|].
  destruct (code c =? 160) eqn:C; [apply Nat.eqb_eq in C; lia|].
  now rewrite andb_false_r.
Qed.

Lemma radix_digit_decimal (c : ascii) :
  is_digit c = true -> exists d, radix_digit 10 c = Some d.
Proof.
  intros H. unfold radix_digit. rewrite H.
  unfold is_digit in H. apply andb_true_iff in H as [_ H2]. apply Nat.leb_le in H2.
  assert (E : (Z.of_nat (code c) - 48 <? 10)%Z = true) by (apply Z.ltb_lt; lia).
  rewrite E. eauto.
Qed.

Lemma read_digits_all (d : string) :
  all_digits d ->
  forall acc n, exists v, read_digits 10 acc n d = (v, n + String.length d, EmptyString).
Proof.
  unfold all_digits.
  induction d as [|c t IH]; simpl; intros H acc n.
  - exists acc. now rewrite Nat.add_0_r.
  - apply andb_true_iff in H as [Hc Ht].
    destruct (radix_digit_decimal c Hc) as [v Hv]. rewrite Hv.
    destruct (IH Ht (acc * 10 + v)%Z (S n)) as [v' Hv']. exists v'.
    rewrite Hv'. f_equal. f_equal. lia.
Qed.

Lemma trimEnd_no_space (s : string) :
  forallb (fun c => negb (is_space c)) (list_ascii_of_string s) = true ->
  trimEnd s = s.
Proof.
  induction s as [|c t IH]; simpl; intros H; [reflexivity|].
  apply andb_true_iff in H as [Hc Ht]. rewrite (IH Ht).
  apply negb_true_iff in Hc. rewrite Hc. now destruct t.
Qed.

Lemma trimEnd_cons (c : ascii) (t : string) :
  t <> EmptyString -> trimEnd t = t -> trimEnd (String c t) = String c t.
Proof.
  intros Hne H. simpl. rewrite H. destruct t; [congruence | reflexivity].
Qed.

Lemma digits_no_space (d : string) :
  all_digits d ->
  forallb (fun c => negb (is_space c)) (list_ascii_of_string d) = true.
Proof.
  unfold all_digits. induction d as [|c t IH]; simpl; intros H; [reflexivity|].
  apply andb_true_iff in H as [Hc Ht].
  now rewrite (digit_not_space c Hc), (IH Ht).
Qed.

(** No two-letter prefix [0x], [0o], [0b] starts a string of digits. *)
Lemma no_radix_prefix (p1 p2 : ascii) (d : string) :
  is_digit p2 = false -> all_digits d ->
  strip_prefix (String p1 (String p2 EmptyString)) d = None.
Proof.
  unfold all_digits. intros Hp H.
  destruct d as [|c [|c2 t]]; simpl in *.
  - reflexivity.
  - now destruct (Ascii.eqb p1 c).
  - apply andb_true_iff in H as [_ H]. apply andb_true_iff in H as [Hc2 _].
    rewrite (digit_differs c2 p2 Hc2 Hp). now destruct (Ascii.eqb p1 c).
Qed.

Lemma nondecimal_literal_digits (d : string) :
  all_digits d -> nondecimal_literal d = None.
Proof.
  intros H. unfold nondecimal_literal.
  now rewrite !no_radix_prefix by (assumption || reflexivity).
Qed.

Lemma Qred_integer (v : Z) (neg : bool) :
  let q := (inject_Z v / inject_Z (10 ^ Z.of_nat 0) * Qpower 10 0)%Q in
  Qred (if neg then - q else q)%Q = inject_Z (if neg then - v else v)%Z.
Proof.
  intros q.
  assert (Hq : (q == inject_Z v)%Q) by (unfold q; simpl; field).
  assert (Hid : forall z, Qred (inject_Z z) = inject_Z z).
  { intros z. apply Qcanon.Qred_identity. simpl. apply Z.gcd_1_r. }
  destruct neg.
  - rewrite <- Hid. apply Qred_complete. rewrite inject_Z_opp, Hq. reflexivity.
  - rewrite <- Hid. apply Qred_complete. exact Hq.
Qed.

(** On an unsigned run of digits both readers give the same number. *)
Lemma readers_agree_on_digits (d : string) (neg : bool) :
  d <> EmptyString -> all_digits d ->
  exists v,
    read_digits 10 0 0 d = (v, String.length d, EmptyString)
    /\ (let '(ip, n1, r1) := read_digits 10 0 0 d in
        let '(m, n2, r2) :=
          match r1 with
          | String c f => if Ascii.eqb c "." then read_digits 10 ip 0 f else (ip, 0, r1)
          | EmptyString => (ip, 0, r1)
          end in
        if (n1 + n2 =? 0) then NaN
        else
          match read_exponent r2 with
          | None => NaN
          | Some e =>
              let q := (inject_Z m / inject_Z (10 ^ Z.of_nat n2) * Qpower 10 e)%Q in
              Num (Qred (if neg then - q else q)%Q)
          end)
       = num_of_Z (if neg then - v else v).
Proof.
  intros Hne Hd.
  destruct (read_digits_all d Hd 0%Z 0) as [v Hv]. simpl in Hv.
  exists v. split; [exact Hv|]. rewrite Hv.
  destruct d as [|c t]; [congruence|].
  cbn [String.length Nat.add Nat.eqb read_exponent].
  unfold num_of_Z. f_equal. apply Qred_integer.
Qed.

Lemma parseInt_digits (d : string) (neg : bool) (v : Z) :
  d <> EmptyString -> all_digits d ->
  read_digits 10 0 0 d = (v, String.length d, EmptyString) ->
  (let '(R, s2) :=
     match strip_prefix "0x" d with
     | Some t => (16%Z, t)
     | None => match strip_prefix "0X" d with
               | Some t => (16%Z, t)
               | None => (10%Z, d)
               end
     end in
   let '(v, n, _) := read_digits R 0 0 s2 in
   if n =? 0 then NaN else num_of_Z (if neg then - v else v))
  = num_of_Z (if neg then - v else v).
Proof.
  intros Hne Hd Hv.
  rewrite !no_radix_prefix by (assumption || reflexivity).
  rewrite Hv. now destruct d.
Qed.

Lemma not_Infinity (d : string) :
  d <> EmptyString -> all_digits d -> (d =? "Infinity")%string = false.
Proof.
  unfold all_digits. intros Hne H. destruct d as [|c t]; [congruence|].
  simpl in *. apply andb_true_iff in H as [Hc _].
  now rewrite (Ascii.eqb_sym c), (digit_differs c "I" Hc).
Qed.

(** [parseInt] and [Number] read the same number from a string made of an
    optional sign and decimal digits. *)
Lemma parseInt_integer_literal (s : string) :
  is_integer_literal s = true -> parseInt s = StringToNumber s.
Proof.
  unfold is_integer_literal. intros H.
  destruct (read_sign s) as [neg d] eqn:Hsign.
  apply andb_true_iff in H as [Hne Hd].
  assert (Hne' : d <> EmptyString) by (intros ->; discriminate).
  fold (all_digits d) in Hd.
  destruct (readers_agree_on_digits d neg Hne' Hd) as [v [Hv Hdec]].
  pose proof (parseInt_digits d neg v Hne' Hd Hv) as Hint.
  pose proof (not_Infinity d Hne' Hd) as Hinf.
  pose proof (trimEnd_no_space d (digits_no_space d Hd)) as Htrim.
  destruct s as [|c t]; [simpl in Hsign; congruence|].
  assert (Hs : trimStart (String c t) = String c t /\ trimEnd (String c t) = String c t
               /\ nondecimal_literal (String c t) = None).
  { simpl in Hsign.
    destruct (Ascii.eqb c "-") eqn:Em;
      [|destruct (Ascii.eqb c "+") eqn:Ep];
      injection Hsign as <- <-.
    - apply Ascii.eqb_eq in Em. subst c.
      split; [reflexivity | split; [now apply trimEnd_cons | reflexivity]].
    - apply Ascii.eqb_eq in Ep. subst c.
      split; [reflexivity | split; [now apply trimEnd_cons | reflexivity]].
    - split; [| split; [exact Htrim | now apply nondecimal_literal_digits]].
      pose proof (digits_no_space _ Hd) as Hsp. simpl in Hsp.
      apply andb_true_iff in Hsp as [Hsp _]. apply negb_true_iff in Hsp.
      simpl. now rewrite Hsp. }
  destruct Hs as [Hstart [Hend Hnon]].
  unfold parseInt, StringToNumber, trim, decimal_literal.
  rewrite Hstart, Hend, Hnon, Hsign, Hinf.
  change ((String c t =? "")%string) with false. cbv iota.
  rewrite Hint. symmetry. exact Hdec.
Qed.

End IntegerLiterals.

(** C2, as the code has it.  For a number [r] and bounds [lo], [hi],
    [validateRating] returns [r] unchanged when [lo <= r <= hi] and null
    otherwise.  A string is read by [parseInt]: the empty string gives null,
    any other string gives what the integer read from its start gives.  So a
    string made of an optional sign and decimal digits gives the same result
    as the number it denotes. *)
Theorem validateRating_range (lo hi : Q) (s : string) :
  is_integer_literal s = true ->
  (forall r : number,
      validateRating (Some (JNum r)) (Num lo) (Num hi)
      = if in_range lo hi r then JNum r else JNull)
  /\ (forall t : string,
        validateRating (Some (JStr t)) (Num lo) (Num hi)
        = if (t =? "")%string then JNull
          else if in_range lo hi (parseInt t) then JNum (parseInt t) else JNull)
  /\ validateRating (Some (JStr s)) (Num lo) (Num hi)
     = validateRating (Some (JNum (StringToNumber s))) (Num lo) (Num hi).
Proof.
  intros H.
  split; [intros r; apply validateRating_number|].
  split; [intros t; apply validateRating_string|].
  rewrite validateRating_string, validateRating_number.
  rewrite <- (parseInt_integer_literal s H).
  destruct s; [discriminate H | reflexivity].
Qed.

(** The string "4" and the bounds 1..5. *)
Lemma validateRating_range_witness :
  is_integer_literal "4" = true
  /\ validateRating (Some (JStr "4")) (Num 1) (Num 5)
     = validateRating (Some (JNum (StringToNumber "4"))) (Num 1) (Num 5).
Proof.
  split; [reflexivity|].
  apply (validateRating_range 1 5 "4"). reflexivity.
Defined.

(** C2, as stated, fails: "5.9" is a numeric string and denotes 5.9; for the
    bounds 1..5 the string is accepted as 5 and the number is rejected.  The
    empty string denotes 0, is rejected for the bounds 0..10, and 0 is kept. *)
Lemma fraction_string_is_truncated :
  StringToNumber "5.9" = Num (59 # 10)
  /\ validateRating (Some (JStr "5.9")) (Num 1) (Num 5) = JNum (Num 5)
  /\ validateRating (Some (JNum (Num (59 # 10)))) (Num 1) (Num 5) = JNull
  /\ StringToNumber "" = Num 0
  /\ validateRating (Some (JStr "")) (Num 0) (Num 10) = JNull
  /\ validateRating (Some (JNum (Num 0))) (Num 0) (Num 10) = JNum (Num 0).
Proof.
  repeat split; reflexivity.
Qed.

(** ** The traditional path *)

Lemma extract_forms_nothing (courseName : string) (formSections : list string) :
  extract_forms courseName formSections = [].
Proof.
  induction formSections as [|formText rest IH]; simpl; [reflexivity | exact IH].
Qed.

Lemma traditional_nothing (w : World) (courseName : string) :
  processPDFWithTraditionalMethods w courseName = Return [].
Proof.
  unfold processPDFWithTraditionalMethods, traditional_body. cbv zeta.
  match goal with |- context [if ?b then Return [] else _] => destruct b end;
    [reflexivity|].
  rewrite extract_forms_nothing. reflexivity.
Qed.

(** C3, at scenario C.  The text with three "Name:" blocks, each with valid
    ratings for Q1 to Q9, is cut into three form sections; the responses
    extracted from them hold nothing but the course name, none passes the
    meaningfulness filter, and the traditional path returns no response: for
    this text, and for every run and every list of sections. *)
Theorem three_names_yield_no_response :
  List.length (splitIntoFormSections (cleanAndNormalizeText three_names_text)) = 3
  /\ map (fun section => hasMeaningfulSurveyData
                           (extractSurveyDataEnhanced section "Leadership 101"))
         (splitIntoFormSections (cleanAndNormalizeText three_names_text))
     = [false; false; false]
  /\ processPDFWithTraditionalMethods
       (example_world three_names_text three_names_text unreachable
                      (Throw "no pages") None)
       "Leadership 101"
     = Return []
  /\ (forall courseName formSections, extract_forms courseName formSections = [])
  /\ (forall w courseName, processPDFWithTraditionalMethods w courseName = Return []).
Proof.
  split; [vm_compute; reflexivity|].
  split; [vm_compute; reflexivity|].
  split; [apply traditional_nothing|].
  split; [exact extract_forms_nothing | exact traditional_nothing].
Qed.

(** ** Scanned-document detection *)

(** The decision rule of the code, and what [hasActualWords] counts. *)
Lemma appears_scanned_rule (rawText : string) :
  (appears_scanned rawText = true
   <-> num_lt (readableTextRatio rawText) (Num (3 # 10)) = true
       \/ (hasEncodedData rawText = true /\ hasActualWords rawText = false))
  /\ (hasActualWords rawText = true <-> 51 <= List.length (real_words rawText)).
Proof.
  unfold appears_scanned, isLikelyScanned, hasActualWords. split.
  - rewrite orb_true_iff, andb_true_iff, negb_true_iff. tauto.
  - rewrite Nat.ltb_lt. lia.
Qed.

(** C4, at fifty words.  A raw text with a stream marker, made of letters
    and spaces only, holds exactly fifty words of four letters or more; its
    readable ratio is not below 0.3; [hasActualWords] is false on it, and it
    is classified as scanned. *)
Theorem fifty_words_classified_scanned :
  List.length (real_words fifty_words_text) = 50
  /\ hasEncodedData fifty_words_text = true
  /\ num_lt (readableTextRatio fifty_words_text) (Num (3 # 10)) = false
  /\ hasActualWords fifty_words_text = false
  /\ appears_scanned fifty_words_text = true.
Proof.
  repeat split; vm_compute; reflexivity.
Qed.

(** ** The answers of the LLM *)

(** The four shapes that the text path reads. *)
Lemma response_list_shapes (items : list json) (fields : list (string * json)) :
  response_list (JArr items) = Return items
  /\ (assoc "responses" fields = Some (JArr items) ->
      response_list (JObj fields) = Return items)
  /\ (isArray (assoc "responses" fields) = false ->
      assoc "surveys" fields = Some (JArr items) ->
      response_list (JObj fields) = Return items)
  /\ (isArray (assoc "responses" fields) = false ->
      isArray (assoc "surveys" fields) = false ->
      response_list (JObj fields) = Return [JObj fields]).
Proof.
  split; [reflexivity|]. unfold response_list. simpl.
  split; [intros ->; reflexivity|].
  split.
  - intros H1 ->. destruct (assoc "responses" fields) as [[]|]; try reflexivity.
    discriminate H1.
  - intros H1 H2. destruct (assoc "responses" fields) as [[]|];
      try discriminate H1;
      destruct (assoc "surveys" fields) as [[]|]; try discriminate H2; reflexivity.
Qed.

(** The one shape that the vision path reads. *)
Lemma page_responses_shapes (courseName : string) (items : list json)
      (fields : list (string * json)) :
  page_responses courseName (JArr items) = Return []
  /\ (assoc "responses" fields = Some (JArr items) ->
      page_responses courseName (JObj fields)
      = Return (validResponses courseName items))
  /\ (isArray (assoc "responses" fields) = false ->
      page_responses courseName (JObj fields) = Return []).
Proof.
  split; [reflexivity|]. unfold page_responses. simpl.
  split; [intros ->; reflexivity|].
  intros H. destruct (assoc "responses" fields) as [[]|]; try reflexivity.
  discriminate H.
Qed.

(** C8, at Bob's form.  The text path returns Bob's response whether the
    answer is an object with a [responses] array, an object with a [surveys]
    array, a bare array or a single object.  The vision path returns it for
    the first shape only: from a page answered with one of the three other
    shapes it extracts nothing. *)
Theorem vision_reads_one_shape :
  let text call :=
    processPDFWithOpenAI
      (example_world readable_text readable_text call (Throw "no pages") None)
      "Leadership 101" in
  let vision call :=
    processPDFWithOpenAIVision
      (example_world EmptyString image_only_text unreachable (Return [call]) None)
      "Leadership 101" in
  let bob := clean_response "Leadership 101" bob_json in
  hasMeaningfulSurveyData bob = true
  /\ map text [in_responses; in_surveys; bare_array; bare_object]
     = [Return [bob]; Return [bob]; Return [bob]; Return [bob]]
  /\ map vision [in_responses; in_surveys; bare_array; bare_object]
     = [Return [bob]; Return []; Return []; Return []].
Proof.
  repeat split; vm_compute; reflexivity.
Qed.

(** A page answered with an HTTP error status is skipped. *)
Lemma vision_skips_error_status (courseName : string) (page : LLMCall)
      (rest : list LLMCall) (found : list SurveyResponse) (error : json) :
  fetched page = Return {| ok := false; json_body := Return error |} ->
  vision_pages courseName (page :: rest) found = vision_pages courseName rest found.
Proof.
  intros H. simpl. rewrite H. reflexivity.
Qed.

(** A page whose content does not parse is skipped. *)
Lemma vision_skips_unparsable (courseName : string) (page : LLMCall)
      (rest : list LLMCall) (found : list SurveyResponse)
      (result : json) (content : value) (e : string) :
  fetched page = Return {| ok := true; json_body := Return result |} ->
  vision_content result = Return content ->
  JSON_parse page content = Throw e ->
  vision_pages courseName (page :: rest) found = vision_pages courseName rest found.
Proof.
  intros H1 H2 H3. simpl. rewrite H1. simpl. rewrite H2. simpl. rewrite H3. simpl.
  now rewrite app_nil_r.
Qed.

(** A page whose [fetch] is rejected ends the loop. *)
Lemma vision_stops_on_rejected_fetch (courseName : string) (page : LLMCall)
      (rest : list LLMCall) (found : list SurveyResponse) (e : string) :
  fetched page = Throw e ->
  vision_pages courseName (page :: rest) found = Throw e.
Proof.
  intros H. simpl. rewrite H. reflexivity.
Qed.

(** C7, at two pages.  The request for page 1 is rejected by the network and
    page 2 is answered with Bob's form.  The vision path throws, page 2 is
    never read, and the run falls back to the traditional path, which finds
    nothing; had page 1 been skipped, Bob's response would have been
    returned. *)
Theorem rejected_page_aborts_vision :
  let w := example_world EmptyString image_only_text unreachable
                         (Return [unreachable; in_responses]) None in
  let bob := clean_response "Leadership 101" bob_json in
  appears_scanned (raw_text w) = true
  /\ processPDFWithOpenAIVision w "Leadership 101" = Throw "error sending request"
  /\ vision_pages "Leadership 101" [in_responses] [] = Return [bob]
  /\ processPDFWithOpenAI w "Leadership 101" = Return []
  /\ map form (survey_responses (snd (serve w example_db)))
     = [placeholderForm w "Leadership 101"].
Proof.
  repeat split; vm_compute; reflexivity.
Qed.

(** ** The request handler *)

Lemma extraction_returns (w : World) (settings : UserSettings) (courseName : string) :
  exists forms, extraction w settings courseName = Return forms.
Proof.
  unfold extraction, processPDFWithOpenAI, try_catch.
  destruct (openai_enabled settings && nonempty (openai_api_key settings)).
  - destruct (openai_body w courseName) as [forms|e]; [now exists forms|].
    rewrite traditional_nothing. now exists [].
  - rewrite traditional_nothing. now exists [].
Qed.

Lemma load_settings_processing (w : World) (upload : CourseUpload) :
  load_settings w (set_status processing upload) = load_settings w upload.
Proof. reflexivity. Qed.

Lemma attempt_update (result : UpdateResult) (change : CourseUpload -> CourseUpload)
      (db : Database) :
  snd (attempt (update_upload result change) (fun _updateError => ret tt) db)
  = after_update result change db.
Proof. unfold attempt, after_update. now destruct result. Qed.

Lemma after_update_rows (result : UpdateResult) (change : CourseUpload -> CourseUpload)
      (db : Database) :
  survey_responses (after_update result change db) = survey_responses db.
Proof. now destruct result. Qed.

Lemma after_update_upload (result : UpdateResult) (change : CourseUpload -> CourseUpload)
      (db : Database) :
  course_uploads (after_update result change db)
  = match result with
    | Applied => option_map change (course_uploads db)
    | _ => course_uploads db
    end.
Proof. now destruct result. Qed.

(** The answer to a run that threw [e]. *)
Lemma failed_answer (w : World) (db db' : Database) (e : string) :
  (req_method w =? "OPTIONS")%string = false ->
  serve_body w db = (Throw e, db') ->
  serve w db
  = (Failed (if (e =? "")%string then "Processing failed" else e),
     if truthy (uploadId_seen w)
     then after_update (failed_update w) (set_status failed) db'
     else db').
Proof.
  intros Hm Hbody. unfold serve. rewrite Hm, Hbody, attempt_update. reflexivity.
Qed.

(** The body of the handler up to the extraction. *)
Lemma serve_body_from_extraction (w : World) (db : Database) (body : RequestBody)
      (upload : CourseUpload) (forms : list SurveyResponse) :
  reaches_extraction w db body upload ->
  extraction w (load_settings w upload) (upload_course_name upload) = Return forms ->
  let kept := with_placeholder w (upload_course_name upload) forms in
  let inserted := with_rows (marked_processing w db) (rows_of (reqUploadId body) kept) in
  serve_body w db =
    match insert_error w with
    | Some e => (Throw e, marked_processing w db)
    | None =>
        match completed_update w with
        | Rejected e => (Throw e, inserted)
        | _ =>
            (Return (Processed ("Successfully processed "
                                  ++ nat_to_string (List.length kept)
                                  ++ " survey responses")%string
                               (List.length kept) "OpenAI"),
             after_update (completed_update w)
                          (set_completed (List.length kept) (List.length kept))
                          inserted)
        end
    end.
Proof.
  intros (Hm & Hj & Hid & Hsel & Hup & (fileUrl & before & filePath & Hurl & Hne & Hsplit)
          & Hde & Hdd & Hpu) Hex kept inserted.
  unfold inserted, with_rows, marked_processing, after_update.
  unfold serve_body, and_then, lift, select_upload, insert_responses, ret, raise.
  rewrite Hj, Hid. cbn [negb].
  destruct (processing_update w) as [| |e] eqn:Hp; [| |now destruct (Hpu e)];
    unfold update_upload at 1; cbn [snd fst update_upload];
    rewrite Hsel; cbn [course_uploads survey_responses]; rewrite Hup;
    cbn [option_map file_url set_status upload_course_name];
    rewrite Hurl, Hne, Hsplit, Hde, Hdd; cbn [negb];
    rewrite ?load_settings_processing, Hex;
    fold kept; fold (rows_of (reqUploadId body) kept);
    (destruct (insert_error w) as [e|];
     [cbn [fst snd course_uploads survey_responses]; rewrite ?Hup; reflexivity|]);
    unfold update_upload;
    destruct (completed_update w);
    cbn [fst snd course_uploads survey_responses]; rewrite ?Hup; reflexivity.
Qed.

(** The run of the handler from the extraction on. *)
Lemma serve_from_extraction (w : World) (db : Database) (body : RequestBody)
      (upload : CourseUpload) (forms : list SurveyResponse) :
  reaches_extraction w db body upload ->
  extraction w (load_settings w upload) (upload_course_name upload) = Return forms ->
  let kept := with_placeholder w (upload_course_name upload) forms in
  serve w db =
    match insert_error w with
    | Some e =>
        (Failed (if (e =? "")%string then "Processing failed" else e), marked_failed w db)
    | None =>
        match completed_update w with
        | Rejected e =>
            (Failed (if (e =? "")%string then "Processing failed" else e),
             failed_after_insert w db (reqUploadId body) kept)
        | _ =>
            (Processed ("Successfully processed " ++ nat_to_string (List.length kept)
                          ++ " survey responses")%string
                       (List.length kept) "OpenAI",
             marked_completed w db (reqUploadId body) kept)
        end
    end.
Proof.
  intros Hreach Hex kept.
  pose proof (serve_body_from_extraction w db body upload forms Hreach Hex) as Hbody.
  cbv zeta in Hbody. fold kept in Hbody.
  destruct Hreach as (Hm & Hj & Hid & _).
  assert (Hseen : truthy (uploadId_seen w) = true)
    by (unfold uploadId_seen; now rewrite Hj).
  destruct (insert_error w) as [e|].
  - rewrite (failed_answer w db _ e Hm Hbody), Hseen. reflexivity.
  - destruct (completed_update w) as [| |e] eqn:Hc.
    + unfold serve, marked_completed. rewrite Hm, Hbody, Hc. reflexivity.
    + unfold serve, marked_completed. rewrite Hm, Hbody, Hc. reflexivity.
    + rewrite (failed_answer w db _ e Hm Hbody), Hseen. reflexivity.
Qed.

Lemma serve_preflight_or_no_upload (w : World) (db : Database) :
  (req_method w =? "OPTIONS")%string = true
  \/ (exists e, req_json w = Throw e)
  \/ (exists body, req_json w = Return body /\ truthy (reqUploadId body) = false) ->
  serve w db = (Preflight, db) \/ exists e, serve w db = (Failed e, db).
Proof.
  unfold serve, serve_body, uploadId_seen, and_then, lift, raise.
  intros [Hm | [[e Hj] | [body [Hj Hid]]]].
  - left. now rewrite Hm.
  - destruct (req_method w =? "OPTIONS")%string; [now left|].
    right. rewrite Hj. eauto.
  - destruct (req_method w =? "OPTIONS")%string; [now left|].
    right. rewrite Hj, Hid. cbn [negb]. eauto.
Qed.

(** A run that throws before the extraction, the request naming an upload. *)
Ltac run_handler :=
  match goal with
  | Hm : (req_method ?w =? "OPTIONS")%string = false,
    Hj : req_json ?w = Return ?body,
    Hid : truthy (reqUploadId ?body) = true |- serve ?w ?db = _ =>
      erewrite (failed_answer w db _ _ Hm);
      [ unfold uploadId_seen; rewrite Hj, Hid; reflexivity
      | unfold serve_body, and_then, lift, select_upload, raise, marked_processing,
          after_update;
        repeat (progress
                  (repeat match goal with
                          | H : _ = _ |- _ => rewrite H
                          end;
                   cbn [negb option_map file_url set_status upload_course_name fst snd
                        course_uploads survey_responses update_upload]));
        reflexivity ]
  end.

(** Every run of the handler leaves the database as it was; or throws before
    it inserts anything, and tries to mark the upload as failed; or gets
    through the extraction and inserts the forms it kept, after which the
    update to 'completed' is rejected, or is not. *)
Lemma serve_cases (w : World) (db : Database) :
  (serve w db = (Preflight, db) \/ exists e, serve w db = (Failed e, db))
  \/ (exists e, serve w db = (Failed e, marked_failed w db))
  \/ (exists body upload forms,
         reaches_extraction w db body upload
         /\ extraction w (load_settings w upload) (upload_course_name upload)
            = Return forms
         /\ insert_error w = None
         /\ ((exists e e',
                 completed_update w = Rejected e'
                 /\ serve w db
                    = (Failed e,
                       failed_after_insert w db (reqUploadId body)
                         (with_placeholder w (upload_course_name upload) forms)))
             \/ ((forall e, completed_update w <> Rejected e)
                 /\ exists message,
                      serve w db
                      = (Processed message
                           (List.length
                              (with_placeholder w (upload_course_name upload) forms))
                           "OpenAI",
                         marked_completed w db (reqUploadId body)
                           (with_placeholder w (upload_course_name upload) forms))))).
Proof.
  destruct (req_method w =? "OPTIONS")%string eqn:Hm;
    [left; apply serve_preflight_or_no_upload; now left|].
  destruct (req_json w) as [body|e] eqn:Hj;
    [|left; apply serve_preflight_or_no_upload; right; left; now exists e].
  destruct (truthy (reqUploadId body)) eqn:Hid;
    [|left; apply serve_preflight_or_no_upload; right; right; now exists body].
  right.
  destruct (processing_update w) as [| |e] eqn:Hp;
    try (left; eexists; unfold marked_failed; run_handler).
  all: destruct (select_error w) eqn:Hsel;
    [left; eexists; unfold marked_failed; run_handler|].
  all: destruct (course_uploads db) as [upload|] eqn:Hup;
    [|left; eexists; unfold marked_failed; run_handler].
  all: destruct (or_else (reqFileUrl body) (file_url upload)) as [fileUrl|] eqn:Hurl;
    [|left; eexists; unfold marked_failed; run_handler].
  all: destruct (fileUrl =? "")%string eqn:Hne;
    [left; eexists; unfold marked_failed; run_handler|].
  all: destruct (split_lit storage_prefix fileUrl)
    as [|before [|filePath [|extra more]]] eqn:Hsplit;
    try (left; eexists; unfold marked_failed; run_handler).
  all: destruct (download_error w) as [e|] eqn:Hde;
    [left; eexists; unfold marked_failed; run_handler|].
  all: destruct (download_data w) eqn:Hdd;
    [|left; eexists; unfold marked_failed; run_handler].
  all: assert (Hreach : reaches_extraction w db body upload)
    by (unfold reaches_extraction; repeat (split; [assumption|]);
        split; [exists fileUrl, before, filePath; repeat split; assumption|];
        split; [assumption|]; split; [assumption|];
        intros e; rewrite Hp; discriminate).
  all: destruct (extraction_returns w (load_settings w upload) (upload_course_name upload))
    as [forms Hex].
  all: pose proof (serve_from_extraction w db body upload forms Hreach Hex) as Hrun.
  all: cbv zeta in Hrun.
  all: destruct (insert_error w) as [e|] eqn:Hie; [left; eexists; exact Hrun|].
  all: right; exists body, upload, forms.
  all: split; [exact Hreach|]; split; [exact Hex|]; split; [reflexivity|].
  all: destruct (completed_update w) as [| |e'] eqn:Hc;
    [ right; split; [intros e; discriminate | eexists; exact Hrun]
    | right; split; [intros e; discriminate | eexists; exact Hrun]
    | left; eexists; exists e'; split; [reflexivity | exact Hrun] ].
Qed.

Lemma example_reaches_extraction (structure raw : string) (call : LLMCall)
      (pages : outcome (list LLMCall)) (insertError : option string) :
  reaches_extraction (example_world structure raw call pages insertError)
                     example_db example_body example_upload.
Proof.
  unfold reaches_extraction. repeat (split; [reflexivity|]).
  split; [|split; [reflexivity|]; split; [reflexivity|]; intros e; discriminate].
  exists "https://project.supabase.co/storage/v1/object/public/survey-pdfs/uploads/forms.pdf",
         "https://project.supabase.co", "uploads/forms.pdf".
  repeat split; reflexivity.
Qed.

(** The ways in which the text path raises: the request is rejected, the
    body of the answer cannot be read, the answer has no content, or the
    content does not parse. *)
Lemma text_path_failures (w : World) (courseName : string) :
  appears_scanned (raw_text w) = false ->
  (forall e, fetched (text_call w) = Throw e -> openai_body w courseName = Throw e)
  /\ (forall r e,
         fetched (text_call w) = Return r -> json_body r = Throw e ->
         openai_body w courseName = Throw e)
  /\ (forall r result content,
         fetched (text_call w) = Return r -> json_body r = Return result ->
         text_content result = Return content -> truthy content = false ->
         openai_body w courseName = Throw "No response from OpenAI")
  /\ (forall r result content e,
         fetched (text_call w) = Return r -> json_body r = Return result ->
         text_content result = Return content -> truthy content = true ->
         JSON_parse (text_call w) content = Throw e ->
         openai_body w courseName = Throw "Failed to parse OpenAI response as JSON").
Proof.
  intros Hs. unfold openai_body. rewrite Hs. repeat split.
  - intros e H. now rewrite H.
  - intros r e H1 H2. rewrite H1. simpl. now rewrite H2.
  - intros r result content H1 H2 H3 H4. rewrite H1. simpl. rewrite H2. simpl.
    rewrite H3. simpl. now rewrite H4.
  - intros r result content e H1 H2 H3 H4 H5. rewrite H1. simpl. rewrite H2. simpl.
    rewrite H3. simpl. rewrite H4. simpl. now rewrite H5.
Qed.

(** What the updates leave of the upload and of the rows. *)
Lemma marked_processing_rows (w : World) (db : Database) :
  survey_responses (marked_processing w db) = survey_responses db.
Proof. apply after_update_rows. Qed.

Lemma marked_failed_rows (w : World) (db : Database) :
  survey_responses (marked_failed w db) = survey_responses db.
Proof. unfold marked_failed. now rewrite after_update_rows, marked_processing_rows. Qed.

Lemma marked_completed_rows (w : World) (db : Database) (uploadId : value)
      (forms : list SurveyResponse) :
  survey_responses (marked_completed w db uploadId forms)
  = survey_responses db ++ rows_of uploadId forms.
Proof.
  unfold marked_completed. rewrite after_update_rows. unfold with_rows.
  cbn [survey_responses]. now rewrite marked_processing_rows.
Qed.

Lemma failed_after_insert_rows (w : World) (db : Database) (uploadId : value)
      (forms : list SurveyResponse) :
  survey_responses (failed_after_insert w db uploadId forms)
  = survey_responses db ++ rows_of uploadId forms.
Proof.
  unfold failed_after_insert. rewrite after_update_rows. unfold with_rows.
  cbn [survey_responses]. now rewrite marked_processing_rows.
Qed.

Lemma marked_completed_applied (w : World) (db : Database) (uploadId : value)
      (forms : list SurveyResponse) (upload : CourseUpload) :
  course_uploads db = Some upload ->
  completed_update w = Applied ->
  course_uploads (marked_completed w db uploadId forms)
  = Some (set_completed (List.length forms) (List.length forms) upload).
Proof.
  intros Hup Hc. unfold marked_completed, with_rows, marked_processing.
  rewrite Hc, !after_update_upload. cbn [course_uploads].
  rewrite ?after_update_upload, Hup. now destruct (processing_update w).
Qed.

(** C5.  Whenever the [try] block of the LLM path raises an exception, of
    any kind, [processPDFWithOpenAI] returns what the traditional path
    returns; it never throws.  A run that got as far as the extraction and
    whose insert succeeds then answers that the responses were processed,
    unless the update to 'completed' is itself rejected, and ends with the
    upload marked as completed when that update is applied. *)
Theorem llm_failure_falls_back (w : World) (courseName : string) (e : string) :
  openai_body w courseName = Throw e ->
  processPDFWithOpenAI w courseName = processPDFWithTraditionalMethods w courseName
  /\ (exists forms, processPDFWithOpenAI w courseName = Return forms)
  /\ (forall db body upload,
         reaches_extraction w db body upload ->
         insert_error w = None ->
         ((forall e', completed_update w <> Rejected e') ->
          exists message n, fst (serve w db) = Processed message n "OpenAI")
         /\ (completed_update w = Applied ->
             status_of (snd (serve w db)) = Some completed)).
Proof.
  intros H. unfold processPDFWithOpenAI. rewrite H. cbn [try_catch].
  split; [reflexivity|].
  split; [exists []; apply traditional_nothing|].
  intros db body upload Hreach Hins.
  destruct (extraction_returns w (load_settings w upload) (upload_course_name upload))
    as [forms Hex].
  pose proof (serve_from_extraction w db body upload forms Hreach Hex) as Hrun.
  cbv zeta in Hrun. rewrite Hins in Hrun.
  destruct Hreach as (_ & _ & _ & _ & Hup & _).
  split.
  - intros Hc. destruct (completed_update w) as [| |e'];
      [| |now destruct (Hc e')]; rewrite Hrun; cbn [fst]; eauto.
  - intros Hc. rewrite Hc in Hrun. rewrite Hrun. cbn [snd]. unfold status_of.
    now rewrite (marked_completed_applied w db _ _ upload Hup Hc).
Qed.

(** A run whose request to the LLM is rejected by the network. *)
Lemma llm_failure_falls_back_witness :
  openai_body (text_run unreachable None) "Leadership 101"
  = Throw "error sending request"
  /\ processPDFWithOpenAI (text_run unreachable None) "Leadership 101"
     = processPDFWithTraditionalMethods (text_run unreachable None) "Leadership 101".
Proof.
  split; [reflexivity|].
  exact (proj1 (llm_failure_falls_back (text_run unreachable None) "Leadership 101"
                  "error sending request" eq_refl)).
Defined.

(** C6.  When the extraction of a run returns no response, the placeholder
    is the one form submitted for insertion; it holds the course name of
    the upload and the date of the day, and no rating, text or contact
    field of it is set.  The insert succeeding and the update to
    'completed' being applied, the placeholder is the one row added, the run
    answers that one response was processed, and the upload is marked as
    completed, not as failed, with both of its counts 1. *)
Theorem zero_data_run (w : World) (db : Database) (body : RequestBody)
        (upload : CourseUpload) :
  reaches_extraction w db body upload ->
  extraction w (load_settings w upload) (upload_course_name upload) = Return [] ->
  insert_error w = None ->
  completed_update w = Applied ->
  let placeholder := bare_response (upload_course_name upload) (Some (JStr (today w))) in
  let after := snd (serve w db) in
  with_placeholder w (upload_course_name upload) [] = [placeholder]
  /\ (course_name placeholder = upload_course_name upload
      /\ response_date placeholder = Some (JStr (today w))
      /\ Forall (fun v : value => v = undefined) (rating_fields placeholder)
      /\ Forall (fun f : field => f = FUndefined)
                (text_fields placeholder ++ contact_fields placeholder))
  /\ (exists message, fst (serve w db) = Processed message 1 "OpenAI")
  /\ survey_responses after
     = survey_responses db ++ [{| upload_id := reqUploadId body; form := placeholder |}]
  /\ option_map processing_status (course_uploads after) = Some completed
  /\ option_map total_forms (course_uploads after) = Some 1
  /\ option_map processed_forms (course_uploads after) = Some 1.
Proof.
  intros Hreach Hex Hins Hc placeholder after.
  pose proof (serve_from_extraction w db body upload [] Hreach Hex) as Hrun.
  cbv zeta in Hrun. rewrite Hins, Hc in Hrun.
  destruct Hreach as (_ & _ & _ & _ & Hup & _).
  split; [reflexivity|].
  split; [repeat split; repeat constructor|].
  unfold after. rewrite Hrun. cbn [fst snd].
  rewrite marked_completed_rows, (marked_completed_applied w db _ _ upload Hup Hc).
  split; [eauto|]. repeat split.
Qed.

(** A readable file for which the LLM finds nothing, the insert succeeding
    and the updates being applied. *)
Lemma zero_data_run_witness :
  reaches_extraction (text_run nothing_found None) example_db example_body example_upload
  /\ extraction (text_run nothing_found None)
       (load_settings (text_run nothing_found None) example_upload) "Leadership 101"
     = Return []
  /\ insert_error (text_run nothing_found None) = None
  /\ completed_update (text_run nothing_found None) = Applied
  /\ option_map processed_forms
       (course_uploads (snd (serve (text_run nothing_found None) example_db)))
     = Some 1.
Proof.
  split; [apply example_reaches_extraction|].
  split; [reflexivity|]. split; [reflexivity|]. split; [reflexivity|].
  exact (proj2 (proj2 (proj2 (proj2 (proj2 (proj2
           (zero_data_run (text_run nothing_found None) example_db example_body
              example_upload
              (example_reaches_extraction _ _ _ _ _) eq_refl eq_refl eq_refl))))))).
Defined.

(** C10.  When a run leaves the upload marked as completed when it was not
    so before, or answers that the responses were processed and its update
    to 'completed' is applied, the run has added rows to the table of
    responses, at least one, the upload is marked as completed, and
    [total_forms] and [processed_forms] are both the number of the rows
    added. *)
Theorem completed_counts_agree (w : World) (db : Database) :
  ((exists message n method, fst (serve w db) = Processed message n method)
   /\ completed_update w = Applied)
  \/ (status_of db <> Some completed
      /\ status_of (snd (serve w db)) = Some completed) ->
  exists rows u',
    survey_responses (snd (serve w db)) = survey_responses db ++ rows
    /\ rows <> []
    /\ course_uploads (snd (serve w db)) = Some u'
    /\ processing_status u' = completed
    /\ total_forms u' = List.length rows
    /\ processed_forms u' = List.length rows
    /\ processed_forms u' = total_forms u'.
Proof.
  intros Hdone.
  assert (Hkept : forall (r : UpdateResult) (rest : Database),
             status_of db <> Some completed ->
             status_of rest = status_of db
             \/ status_of rest = status_of (marked_processing w db) ->
             status_of (after_update r (set_status failed) rest) <> Some completed).
  { intros r rest Hbefore Hrest. unfold status_of in *.
    rewrite after_update_upload.
    unfold marked_processing in Hrest. rewrite after_update_upload in Hrest.
    destruct r, (processing_update w), (course_uploads rest), (course_uploads db);
      cbn in *; destruct Hrest; congruence. }
  destruct (serve_cases w db)
    as [[Hrun | [e Hrun]] | [[e Hrun]
        | (body & upload & forms & Hreach & _ & _
           & [(e & e' & Hc & Hrun) | (Hc & message & Hrun)])]].
  - exfalso. rewrite Hrun in Hdone. cbn [fst snd] in Hdone.
    destruct Hdone as [[(m & n & meth & H) _] | [H1 H2]]; [discriminate | tauto].
  - exfalso. rewrite Hrun in Hdone. cbn [fst snd] in Hdone.
    destruct Hdone as [[(m & n & meth & H) _] | [H1 H2]]; [discriminate | tauto].
  - exfalso. rewrite Hrun in Hdone. cbn [fst snd] in Hdone.
    destruct Hdone as [[(m & n & meth & H) _] | [H1 H2]]; [discriminate|].
    unfold marked_failed in H2. revert H2. apply Hkept; [exact H1 | now right].
  - exfalso. rewrite Hrun in Hdone. cbn [fst snd] in Hdone.
    destruct Hdone as [[(m & n & meth & H) _] | [H1 H2]]; [discriminate|].
    unfold failed_after_insert in H2. revert H2. apply Hkept; [exact H1 | now right].
  - destruct Hreach as (_ & _ & _ & _ & Hup & _).
    assert (Happlied : completed_update w = Applied).
    { destruct Hdone as [[_ H] | [H1 H2]]; [exact H|].
      rewrite Hrun in H2. cbn [snd] in H2.
      unfold status_of, marked_completed, with_rows, marked_processing in H1, H2.
      rewrite !after_update_upload in H2. cbn [course_uploads] in H2.
      rewrite ?after_update_upload, Hup in H2. rewrite Hup in H1.
      destruct (completed_update w) as [| |e']; [reflexivity| |now destruct (Hc e')].
      destruct (processing_update w); cbn in H1, H2; congruence. }
    rewrite Hrun. cbn [snd].
    rewrite marked_completed_rows, (marked_completed_applied w db _ _ upload Hup Happlied).
    exists (rows_of (reqUploadId body)
                    (with_placeholder w (upload_course_name upload) forms)).
    eexists. unfold rows_of. rewrite length_map.
    repeat split; try reflexivity.
    destruct forms; discriminate.
Qed.

(** A readable file in which the LLM finds Bob's form. *)
Lemma completed_counts_agree_witness :
  fst (serve (text_run in_responses None) example_db)
  = Processed "Successfully processed 1 survey responses" 1 "OpenAI"
  /\ exists rows u',
       survey_responses (snd (serve (text_run in_responses None) example_db))
       = survey_responses example_db ++ rows
       /\ rows <> []
       /\ course_uploads (snd (serve (text_run in_responses None) example_db)) = Some u'
       /\ processing_status u' = completed
       /\ total_forms u' = List.length rows
       /\ processed_forms u' = List.length rows
       /\ processed_forms u' = total_forms u'.
Proof.
  split; [reflexivity|].
  apply (completed_counts_agree (text_run in_responses None) example_db).
  left. split; [|reflexivity].
  exists "Successfully processed 1 survey responses", 1, "OpenAI". reflexivity.
Defined.

(** Scenario C is not the empty text. *)
Lemma splitIntoFormSections_bounds_witness :
  three_names_text <> "" /\ splitIntoFormSections three_names_text <> [].
Proof.
  assert (H : three_names_text <> "") by (cbv; discriminate).
  split; [exact H|].
  exact (proj2 (splitIntoFormSections_bounds three_names_text) H).
Defined.

(** * Further properties *)

(** ** Trimming *)

Lemma trimEnd_idempotent (s : string) : trimEnd (trimEnd s) = trimEnd s.
Proof.
  induction s as [|c t IH]; simpl; [reflexivity|].
  destruct (trimEnd t) as [|c' t'] eqn:E.
  - destruct (is_space c) eqn:Hc; simpl; [reflexivity | now rewrite Hc].
  - simpl in IH. simpl. now rewrite IH.
Qed.

Lemma trimStart_head (s : string) :
  match trimStart s with
  | EmptyString => True
  | String c _ => is_space c = false
  end.
Proof.
  induction s as [|c t IH]; simpl; [exact I|].
  destruct (is_space c) eqn:Hc; [exact IH | exact Hc].
Qed.

Lemma trimStart_trimEnd (x : string) :
  match x with
  | EmptyString => True
  | String c _ => is_space c = false
  end ->
  trimStart (trimEnd x) = trimEnd x.
Proof.
  destruct x as [|c t]; [reflexivity|]. intros Hc. simpl.
  destruct (trimEnd t); rewrite ?Hc; simpl; now rewrite Hc.
Qed.

Lemma trim_idempotent (s : string) : trim (trim s) = trim s.
Proof.
  unfold trim. rewrite trimStart_trimEnd by apply trimStart_head.
  apply trimEnd_idempotent.
Qed.

Lemma trimEnd_length (s : string) : String.length (trimEnd s) <= String.length s.
Proof.
  induction s as [|c t IH]; simpl; [lia|].
  destruct (trimEnd t); [destruct (is_space c)|]; simpl in *; lia.
Qed.

Lemma trimStart_length (s : string) : String.length (trimStart s) <= String.length s.
Proof.
  induction s as [|c t IH]; simpl; [lia|].
  destruct (is_space c); simpl; lia.
Qed.

Lemma trim_length (s : string) : String.length (trim s) <= String.length s.
Proof.
  unfold trim. eapply Nat.le_trans; [apply trimEnd_length | apply trimStart_length].
Qed.

Lemma append_length (a b : string) :
  String.length (a ++ b) = String.length a + String.length b.
Proof. induction a as [|c a IH]; simpl; [reflexivity | now rewrite IH]. Qed.

Lemma long_enough_trim (s : string) : long_enough (trim s) = long_enough s.
Proof. unfold long_enough. now rewrite trim_idempotent. Qed.

(** ** Text and rating validation *)

Lemma empty_eqb_length (s : string) :
  (s =? "")%string = (String.length s =? 0).
Proof. now destruct s. Qed.

Lemma validateText_string (s : string) :
  validateText (Some (JStr s))
  = if (1 <=? String.length (trim s)) && (String.length (trim s) <=? 1000)
    then FStr (trim s) else FNull.
Proof.
  unfold validateText. rewrite empty_eqb_length.
  destruct (String.length s =? 0) eqn:E0.
  - apply Nat.eqb_eq in E0. destruct s; [reflexivity | discriminate].
  - destruct (String.length (trim s)) as [|n] eqn:En; simpl; [reflexivity|].
    destruct (1000 <? S n) eqn:E1.
    + apply Nat.ltb_lt in E1.
      destruct (n <=? 999) eqn:E2; [apply Nat.leb_le in E2; lia | reflexivity].
    + apply Nat.ltb_ge in E1.
      destruct (n <=? 999) eqn:E2; [reflexivity | apply Nat.leb_gt in E2; lia].
Qed.

Lemma validateText_not_string (v : value) :
  (forall s, v <> Some (JStr s)) -> validateText v = FNull.
Proof.
  intros H. destruct v as [[| b | n | s | l | f]|]; try reflexivity.
  now destruct (H s).
Qed.

(** Validating a validated text again changes nothing. *)
Lemma validateText_again (v : value) :
  validateText (field_value (validateText v)) = validateText v.
Proof.
  destruct v as [[| b | n | s | l | f]|]; try reflexivity.
  rewrite validateText_string.
  destruct ((1 <=? String.length (trim s)) && (String.length (trim s) <=? 1000)) eqn:E;
    [|reflexivity].
  simpl field_value. now rewrite validateText_string, trim_idempotent, E.
Qed.

(** X1.  [validateText] returns a string exactly for a string input whose
    trimmed form has 1 to 1000 code units, and then returns that trimmed
    form; it returns null otherwise, never [undefined]; what it returns is
    trimmed; and validating its result again changes nothing. *)
Theorem validateText_trims (v : value) :
  (forall t,
      validateText v = FStr t
      <-> exists s, v = Some (JStr s) /\ t = trim s
                    /\ 1 <= String.length t <= 1000)
  /\ (validateText v = FNull \/ exists t, validateText v = FStr t)
  /\ (forall t, validateText v = FStr t -> trim t = t)
  /\ validateText (field_value (validateText v)) = validateText v.
Proof.
  split; [|split; [|split; [|apply validateText_again]]].
  - intros t. split.
    + intros H. destruct v as [[| b | n | s | l | f]|]; try discriminate H.
      rewrite validateText_string in H.
      destruct ((1 <=? String.length (trim s)) && (String.length (trim s) <=? 1000))
        eqn:E; [|discriminate H].
      injection H as <-. apply andb_true_iff in E as [E1 E2].
      apply Nat.leb_le in E1, E2. exists s. repeat split; assumption.
    + intros (s & -> & -> & H1 & H2). rewrite validateText_string.
      apply Nat.leb_le in H1, H2. now rewrite H1, H2.
  - destruct v as [[| b | n | s | l | f]|]; try (now left).
    rewrite validateText_string. destruct (_ && _); [right; eauto | now left].
  - intros t H. destruct v as [[| b | n | s | l | f]|]; try discriminate H.
    rewrite validateText_string in H. destruct (_ && _); [|discriminate H].
    injection H as <-. apply trim_idempotent.
Qed.


Lemma rating_check (lo hi : Q) (j : json) :
  (isNaN j || num_lt (ToNumber j) (Num lo) || num_gt (ToNumber j) (Num hi))
  = negb (in_range lo hi (ToNumber j)).
Proof.
  unfold isNaN, in_range, num_gt.
  destruct (ToNumber j) as [|[|]|q]; simpl; try reflexivity.
  now destruct (Qle_bool lo q), (Qle_bool q hi).
Qed.

(** A value that is neither null nor a string is kept or refused as the
    number it converts to lies within the bounds or not. *)
Lemma validateRating_kept (lo hi : Q) (j : json) :
  (forall s, j <> JStr s) -> j <> JNull ->
  validateRating (Some j) (Num lo) (Num hi)
  = if in_range lo hi (ToNumber j) then j else JNull.
Proof.
  intros Hs Hn. unfold validateRating.
  destruct j as [| b | n | s | l | f]; try congruence;
    try (rewrite rating_check; now destruct (in_range lo hi _)).
  all: exfalso; now apply (Hs s).
Qed.

(** Validating a validated rating again changes nothing. *)
Lemma validateRating_again (v : value) (lo hi : Q) :
  validateRating (Some (validateRating v (Num lo) (Num hi))) (Num lo) (Num hi)
  = validateRating v (Num lo) (Num hi).
Proof.
  destruct v as [[| b | n | s | l | f]|]; try reflexivity;
    try (match goal with
         | |- _ = validateRating (Some ?j) _ _ =>
             rewrite (validateRating_kept lo hi j) by (intros; discriminate);
             destruct (in_range lo hi (ToNumber j)) eqn:E; [|reflexivity];
             rewrite (validateRating_kept lo hi j) by (intros; discriminate);
             now rewrite E
         end).
  rewrite validateRating_string.
  destruct (s =? "")%string; [reflexivity|].
  destruct (in_range lo hi (parseInt s)) eqn:E; [|reflexivity].
  rewrite validateRating_number. now rewrite E.
Qed.


(** ** Form sections, further *)

Section SegmenterBounds.

Variable splitters : list (string -> list string).

Lemma split_round_length (sections : list string) (splitter : string -> list string) :
  List.length sections <= 50 -> List.length (split_round sections splitter) <= 50.
Proof.
  intros H. unfold split_round.
  match goal with |- context [if ?b then _ else _] => destruct b eqn:E end; [|exact H].
  apply andb_true_iff in E as [_ E]. now apply Nat.leb_le in E.
Qed.

Lemma fold_split_round_length (ss : list (string -> list string)) :
  forall sections,
    List.length sections <= 50 ->
    List.length (fold_left split_round ss sections) <= 50.
Proof.
  induction ss as [|sp ss IH]; simpl; intros sections H; [exact H|].
  apply IH. now apply split_round_length.
Qed.

Lemma merge_sections_count (sections : list string) :
  forall currentSection,
    List.length (merge_sections currentSection sections)
    <= List.length sections + (if long_enough currentSection then 1 else 0).
Proof.
  induction sections as [|section rest IH]; simpl; intros cur.
  - destruct (long_enough cur); simpl; lia.
  - destruct (String.length cur + String.length section <? 1500).
    + eapply Nat.le_trans; [apply IH|].
      destruct (long_enough _), (long_enough cur); lia.
    + rewrite length_app. specialize (IH section).
      destruct (long_enough cur), (long_enough section); simpl; lia.
Qed.

Lemma merge_sections_long (sections : list string) :
  forall currentSection,
    Forall (fun block => trim block = block /\ 50 < String.length block)
           (merge_sections currentSection sections).
Proof.
  assert (Hpush : forall cur,
             Forall (fun block => trim block = block /\ 50 < String.length block)
                    (if long_enough cur then [trim cur] else [])).
  { intros cur. destruct (long_enough cur) eqn:E; constructor; [|constructor].
    split; [apply trim_idempotent | now apply Nat.ltb_lt in E]. }
  induction sections as [|section rest IH]; simpl; intros cur.
  - apply Hpush.
  - destruct (String.length cur + String.length section <? 1500); [apply IH|].
    apply Forall_app. split; [apply Hpush | apply IH].
Qed.

Lemma merge_sections_size (sections : list string) :
  forall currentSection all,
    incl sections all ->
    String.length currentSection <= 1500 \/ In currentSection all ->
    Forall (fun block => String.length block <= 1500
                         \/ exists s, In s all /\ block = trim s)
           (merge_sections currentSection sections).
Proof.
  assert (Hpush : forall cur all,
             String.length cur <= 1500 \/ In cur all ->
             Forall (fun block => String.length block <= 1500
                                  \/ exists s, In s all /\ block = trim s)
                    (if long_enough cur then [trim cur] else [])).
  { intros cur all H. destruct (long_enough cur); constructor; [|constructor].
    destruct H as [H | H].
    - left. pose proof (trim_length cur). lia.
    - right. now exists cur. }
  induction sections as [|section rest IH]; simpl; intros cur all Hincl Hcur.
  - now apply Hpush.
  - assert (Hrest : incl rest all) by (intros x Hx; apply Hincl; now right).
    destruct (String.length cur + String.length section <? 1500) eqn:E.
    + apply IH; [exact Hrest|]. left. apply Nat.ltb_lt in E.
      rewrite !append_length. simpl. lia.
    + apply Forall_app. split; [now apply Hpush|].
      apply IH; [exact Hrest|]. right. apply Hincl. now left.
Qed.

Lemma sections_before_slice_bounds (text : string) :
  List.length (sections_before_slice splitters text) <= 50
  /\ (sections_before_slice splitters text = [text]
      \/ Forall (fun section => 50 < String.length (trim section))
                (sections_before_slice splitters text)).
Proof.
  unfold sections_before_slice.
  assert (Hlen : List.length (fold_left split_round splitters [text]) <= 50).
  { apply fold_split_round_length. simpl. lia. }
  assert (Hok : sections_ok text (fold_left split_round splitters [text])).
  { apply fold_split_round_ok. split; [discriminate | now left]. }
  set (sections := fold_left split_round splitters [text]) in *.
  destruct (15 <? List.length sections) eqn:E.
  - split.
    + pose proof (merge_sections_count sections "") as H. simpl in H. lia.
    + right. eapply Forall_impl; [|apply merge_sections_long].
      intros block [Ht Hl]. now rewrite Ht.
  - split; [exact Hlen|].
    destruct Hok as [_ [Hone | Hall]]; [now left | right].
    eapply Forall_impl; [|exact Hall].
    intros s Hs. now apply Nat.ltb_lt in Hs.
Qed.

Lemma form_sections_by_slice (text : string) :
  form_sections_by splitters text = sections_before_slice splitters text.
Proof.
  change (form_sections_by splitters text)
    with (firstn 50 (sections_before_slice splitters text)).
  apply firstn_all2. apply sections_before_slice_bounds.
Qed.

End SegmenterBounds.

(** X3.  [splitIntoFormSections] gives the text back whole, as the only
    section, or gives sections that all have more than 50 code units once
    trimmed; and [slice(0, 50)] never drops a section, since the list is
    never longer than 50 before it. *)
Theorem form_sections_whole_or_long (text : string) :
  (splitIntoFormSections text = [text]
   \/ Forall (fun section => 50 < String.length (trim section))
             (splitIntoFormSections text))
  /\ splitIntoFormSections text = sections_before_slice (map split separators) text.
Proof.
  destruct (sections_before_slice_bounds (map split separators) text) as [Hlen Hshape].
  assert (E : splitIntoFormSections text
              = sections_before_slice (map split separators) text).
  { unfold splitIntoFormSections. apply form_sections_by_slice. }
  split; [|exact E]. rewrite E. exact Hshape.
Qed.

(** X4.  The loop that merges sections never gives more blocks than it was
    given sections; every block it gives is trimmed and has more than 50
    code units; and a block of more than 1500 code units is always one of
    the given sections on its own, trimmed: the loop never builds one. *)
Theorem merge_sections_blocks (sections : list string) :
  List.length (merge_sections "" sections) <= List.length sections
  /\ Forall (fun block => trim block = block /\ 50 < String.length block)
            (merge_sections "" sections)
  /\ Forall (fun block => 1500 < String.length block ->
                          exists s, In s sections /\ block = trim s)
            (merge_sections "" sections).
Proof.
  split; [|split].
  - pose proof (merge_sections_count sections "") as H. simpl in H. lia.
  - apply merge_sections_long.
  - eapply Forall_impl; [|apply (merge_sections_size sections "" sections)].
    + intros block [H | H] Hbig; [lia | exact H].
    + apply incl_refl.
    + left. simpl. lia.
Qed.

(** ** The vision loop, further *)

Lemma vision_pages_found (courseName : string) (pages : list LLMCall) :
  forall found,
    vision_pages courseName pages found
    = (a <- vision_pages courseName pages [] ;; Return (found ++ a)).
Proof.
  induction pages as [|page rest IH]; intros found; simpl.
  - now rewrite app_nil_r.
  - destruct (fetched page) as [response|e]; simpl; [|reflexivity].
    destruct (ok response); simpl.
    + destruct (json_body response) as [result|e]; simpl; [|reflexivity].
      destruct (vision_content result) as [content|e]; simpl; [|reflexivity].
      match goal with
      | |- context [try_catch ?body ?handler] =>
          destruct (try_catch body handler) as [here|e]; simpl; [|reflexivity]
      end.
      rewrite (IH (found ++ here)), (IH here).
      destruct (vision_pages courseName rest []) as [later|e]; simpl; [|reflexivity].
      now rewrite app_assoc.
    + destruct (json_body response) as [error|e]; simpl; [|reflexivity].
      apply IH.
Qed.

(** X5.  The vision loop reads the pages in order and only adds to what it
    has found: over the pages [first ++ rest] it returns what was found
    before, then what [first] gives, then what [rest] gives; if it throws on
    [first], the pages of [rest] are not read. *)
Theorem vision_pages_in_order (courseName : string) (first rest : list LLMCall)
        (found : list SurveyResponse) :
  vision_pages courseName (first ++ rest) found
  = (a <- vision_pages courseName first [] ;;
     b <- vision_pages courseName rest [] ;;
     Return (found ++ a ++ b)).
Proof.
  revert found. induction first as [|page first IH]; intros found; simpl.
  - rewrite vision_pages_found.
    now destruct (vision_pages courseName rest []).
  - destruct (fetched page) as [response|e]; simpl; [|reflexivity].
    destruct (ok response); simpl.
    + destruct (json_body response) as [result|e]; simpl; [|reflexivity].
      destruct (vision_content result) as [content|e]; simpl; [|reflexivity].
      match goal with
      | |- context [try_catch ?body ?handler] =>
          destruct (try_catch body handler) as [here|e]; simpl; [|reflexivity]
      end.
      rewrite IH, (vision_pages_found courseName first here).
      destruct (vision_pages courseName first []) as [a|e]; simpl; [|reflexivity].
      destruct (vision_pages courseName rest []) as [b|e]; simpl; [|reflexivity].
      now rewrite <- !app_assoc.
    + destruct (json_body response) as [error|e]; simpl; [|reflexivity].
      apply IH.
Qed.

(** ** The request handler, further *)

(** X6.  A run only adds rows to the table of responses: the rows that were
    there stay, in place.  Every row added carries the upload id of the
    request.  A preflight adds no row.  A run that answers with an error has
    added no row, unless the error is the rejection of the update to
    'completed', which comes after the insert.  A run that answers that
    responses were processed reports the number of rows it added, which is
    at least 1. *)
Theorem responses_append_only (w : World) (db : Database) :
  exists rows,
    survey_responses (snd (serve w db)) = survey_responses db ++ rows
    /\ Forall (fun row => upload_id row = uploadId_seen w) rows
    /\ (forall e, fst (serve w db) = Failed e ->
        rows = []
        \/ (1 <= List.length rows /\ exists e', completed_update w = Rejected e'))
    /\ (fst (serve w db) = Preflight -> rows = [])
    /\ (forall message n method,
           fst (serve w db) = Processed message n method ->
           n = List.length rows /\ 1 <= n).
Proof.
  destruct (serve_cases w db)
    as [[Hrun | [e Hrun]] | [[e Hrun]
        | (body & upload & forms & Hreach & _ & _
           & [(e & e' & Hc & Hrun) | (Hc & message & Hrun)])]].
  1-3: exists []; rewrite Hrun; cbn [fst snd]; rewrite ?marked_failed_rows, app_nil_r;
    split; [reflexivity|]; split; [constructor|];
    split; [intros; now left|]; split; [reflexivity|]; intros; discriminate.
  all: exists (rows_of (reqUploadId body)
                       (with_placeholder w (upload_course_name upload) forms)).
  all: rewrite Hrun; cbn [fst snd];
    rewrite ?failed_after_insert_rows, ?marked_completed_rows.
  all: destruct Hreach as (_ & Hj & _).
  all: assert (Hlen : 1 <= List.length
                        (rows_of (reqUploadId body)
                                 (with_placeholder w (upload_course_name upload) forms)))
    by (unfold rows_of; rewrite length_map; destruct forms; simpl; lia).
  all: split; [reflexivity|]; split;
    [ unfold uploadId_seen; rewrite Hj; unfold rows_of;
      apply Forall_forall; intros row Hrow; apply in_map_iff in Hrow as [f [<- _]];
      reflexivity |].
  - split; [intros _ _; right; split; [exact Hlen | now exists e']|].
    split; intros; discriminate.
  - split; [intros; discriminate|]. split; [intros; discriminate|].
    intros m n meth H. injection H as _ <- _.
    unfold rows_of in *. rewrite length_map in *. now split.
Qed.

Lemma placeholder_counted (w : World) (c : string) (forms : list SurveyResponse) :
  1 <= List.length (with_placeholder w c forms).
Proof. destruct forms; simpl; lia. Qed.

(** X7.  A run never creates an upload and never changes its course name,
    file name, file URL or creator.  It leaves the upload as it was, or
    marked as processing or as failed with its counts unchanged, or marked
    as completed with [total_forms] equal to [processed_forms] and at least
    1.  When the database applies the updates to 'failed' and to
    'completed', the run does not leave the upload in the processing state
    it sets at the start: the upload is as it was before the run, or
    failed, or completed. *)
Theorem upload_after_run (w : World) (db : Database) :
  match course_uploads db with
  | None => course_uploads (snd (serve w db)) = None
  | Some u =>
      exists u',
        course_uploads (snd (serve w db)) = Some u'
        /\ upload_course_name u' = upload_course_name u
        /\ file_name u' = file_name u
        /\ file_url u' = file_url u
        /\ created_by u' = created_by u
        /\ upload_outcome u u'
        /\ (failed_update w = Applied ->
            completed_update w = Applied ->
            u' = u
            \/ processing_status u' = failed
            \/ processing_status u' = completed)
  end.
Proof.
  destruct (serve_cases w db)
    as [[Hrun | [e Hrun]] | [[e Hrun]
        | (body & upload & forms & Hreach & _ & _
           & [(e & e' & Hc & Hrun) | (Hc & message & Hrun)])]];
    rewrite Hrun; cbn [snd].
  - destruct (course_uploads db) as [u|]; [|reflexivity].
    exists u. repeat (split; [reflexivity|]). split; [now left | intros; now left].
  - destruct (course_uploads db) as [u|]; [|reflexivity].
    exists u. repeat (split; [reflexivity|]). split; [now left | intros; now left].
  - unfold marked_failed, marked_processing. rewrite !after_update_upload.
    destruct (course_uploads db) as [u|];
      [|now destruct (failed_update w), (processing_update w)].
    destruct (failed_update w), (processing_update w); cbn [option_map];
      (eexists; split; [reflexivity|]; repeat (split; [reflexivity|]));
      (split; [|intros Hf Hc; try discriminate; right; left; reflexivity]);
      first [ now left
            | right; left; split; [now left | now split]
            | right; left; split; [now right | now split] ].
  - unfold failed_after_insert, with_rows, marked_processing.
    rewrite !after_update_upload. cbn [course_uploads]. rewrite ?after_update_upload.
    destruct Hreach as (_ & _ & _ & _ & Hup & _). rewrite Hup.
    destruct (failed_update w), (processing_update w); cbn [option_map];
      (eexists; split; [reflexivity|]; repeat (split; [reflexivity|]));
      (split; [|intros Hf Hc'; try discriminate; right; left; reflexivity]);
      first [ now left
            | right; left; split; [now left | now split]
            | right; left; split; [now right | now split] ].
  - unfold marked_completed, with_rows, marked_processing.
    rewrite !after_update_upload. cbn [course_uploads]. rewrite ?after_update_upload.
    destruct Hreach as (_ & _ & _ & _ & Hup & _). rewrite Hup.
    pose proof (placeholder_counted w (upload_course_name upload) forms) as Hlen.
    destruct (completed_update w), (processing_update w); cbn [option_map];
      (eexists; split; [reflexivity|]; repeat (split; [reflexivity|]));
      (split; [|intros Hf Hc'; try discriminate; right; right; reflexivity]);
      first [ now left
            | right; left; split; [now left | now split]
            | right; right; split; [reflexivity | split; [reflexivity | exact Hlen]] ].
Qed.

(** A run whose download fails while the database refuses the update to
    'failed': the upload is left in the processing state. *)
Lemma upload_can_stay_processing :
  fst (serve stuck_run example_db) = Failed "Failed to download PDF: not found"
  /\ status_of (snd (serve stuck_run example_db)) = Some processing.
Proof. split; reflexivity. Qed.

Lemma load_settings_flag (flag : bool) (w : World) (upload : CourseUpload) :
  load_settings (with_enabled flag w) upload = load_settings w upload.
Proof.
  unfold load_settings, with_enabled. cbn [user_settings].
  destruct (user_settings w) as [settings|]; cbn [option_map]; [|reflexivity].
  now destruct (nonempty (created_by upload)).
Qed.

Lemma extraction_flag (flag : bool) (w : World) (settings : UserSettings)
      (courseName : string) :
  extraction (with_enabled flag w) settings courseName = extraction w settings courseName.
Proof. reflexivity. Qed.

(** X8.  The stored [openai_enabled] setting has no effect: two runs that
    differ only in that setting give the same answer and the same database. *)
Theorem stored_flag_is_ignored (flag : bool) (w : World) (db : Database) :
  serve (with_enabled flag w) db = serve w db.
Proof.
  unfold serve, uploadId_seen, serve_body, and_then, lift, select_upload,
    update_upload, raise.
  cbn [req_method req_json select_error processing_update with_enabled].
  destruct (req_method w =? "OPTIONS")%string; [reflexivity|].
  destruct (req_json w) as [body|e]; [|reflexivity].
  destruct (truthy (reqUploadId body)); cbn [negb]; [|reflexivity].
  destruct (processing_update w); [| |reflexivity].
  all: destruct (select_error w); [reflexivity|].
  all: cbn [course_uploads]; destruct (course_uploads db) as [u|]; cbn [option_map];
    [|reflexivity].
  all: rewrite ?load_settings_processing, load_settings_flag; reflexivity.
Qed.

(** ** The matcher *)

Lemma append_empty_r (s : string) : (s ++ "")%string = s.
Proof. induction s as [|c s IH]; simpl; [reflexivity | now rewrite IH]. Qed.

Lemma append_assoc (a b c : string) : ((a ++ b) ++ c)%string = (a ++ b ++ c)%string.
Proof. induction a as [|x a IH]; simpl; [reflexivity | now rewrite IH]. Qed.

Lemma last_char_append (a b : string) (d : option ascii) :
  last_char (a ++ b) d = last_char b (last_char a d).
Proof.
  revert d. induction a as [|c a IH]; intros d; simpl; [reflexivity | apply IH].
Qed.

(** The matcher only reports what the pattern matches: when it succeeds,
    the subject starts with a text [m] that the pattern matches, and the
    continuation has succeeded on what follows. *)
Lemma rmatch_sound (r : regex) :
  forall prev s k x,
    rmatch r prev s k = Some x ->
    exists m rest,
      s = (m ++ rest)%string /\ matches r prev m rest
      /\ k (last_char m prev) rest = Some x.
Proof.
  induction r as [| p | r1 IH1 r2 IH2 | r1 IH1 r2 IH2 | r1 IH1 | | |];
    intros prev s k x H; cbn [rmatch] in H.
  - exists EmptyString, s. repeat split; [constructor | exact H].
  - destruct s as [|c t]; [discriminate|].
    destruct (p c) eqn:Hp; [|discriminate].
    exists (String c EmptyString), t. repeat split; [now constructor | exact H].
  - apply IH1 in H as (m1 & rest1 & -> & Hm1 & H).
    apply IH2 in H as (m2 & rest & -> & Hm2 & H).
    exists (m1 ++ m2)%string, rest. rewrite append_assoc, last_char_append.
    repeat split; [now constructor | exact H].
  - destruct (rmatch r1 prev s k) as [y|] eqn:E.
    + injection H as ->. apply IH1 in E as (m & rest & -> & Hm & E).
      exists m, rest. repeat split; [now apply matches_alt_l | exact E].
    + apply IH2 in H as (m & rest & -> & Hm & H).
      exists m, rest. repeat split; [now apply matches_alt_r | exact H].
  - revert H. generalize (String.length s) at 1. intros fuel.
    revert prev s x. induction fuel as [|fuel IHf]; intros prev s x H.
    + exists EmptyString, s. repeat split; [constructor | exact H].
    + match type of H with
      | match ?call with _ => _ end = _ => destruct call as [y|] eqn:E
      end.
      * injection H as ->. apply IH1 in E as (m1 & rest1 & -> & Hm1 & E).
        destruct (String.length rest1 <? String.length (m1 ++ rest1)); [|discriminate].
        apply IHf in E as (m2 & rest & -> & Hm2 & E).
        exists (m1 ++ m2)%string, rest. rewrite append_assoc, last_char_append.
        repeat split; [now apply matches_star_cons | exact E].
      * exists EmptyString, s. repeat split; [constructor | exact H].
  - destruct prev; [discriminate|].
    exists EmptyString, s. repeat split; [constructor | exact H].
  - destruct s; [|discriminate].
    exists EmptyString, EmptyString. repeat split; [constructor | exact H].
  - destruct (xorb (is_word_opt prev) (is_word_opt (head_char s))) eqn:E; [|discriminate].
    exists EmptyString, s. repeat split; [now constructor | exact H].
Qed.

Lemma take_append (m rest : string) :
  take (String.length (m ++ rest) - String.length rest) (m ++ rest) = m.
Proof.
  rewrite append_length.
  replace (String.length m + String.length rest - String.length rest)
    with (String.length m) by lia.
  induction m as [|c m IH]; simpl; [now destruct rest | now rewrite IH].
Qed.

Lemma match_at_sound (r : regex) (prev : option ascii) (s rest : string) :
  match_at r prev s = Some rest ->
  exists m, s = (m ++ rest)%string /\ matches r prev m rest.
Proof.
  unfold match_at. intros H.
  apply rmatch_sound in H as (m & rest' & -> & Hm & H).
  injection H as ->. now exists m.
Qed.

Lemma match_at_take (r : regex) (prev : option ascii) (s rest : string) :
  match_at r prev s = Some rest ->
  s = (take (String.length s - String.length rest) s ++ rest)%string
  /\ matches r prev (take (String.length s - String.length rest) s) rest.
Proof.
  intros H. apply match_at_sound in H as (m & -> & Hm).
  rewrite take_append. now split.
Qed.

(** The search cuts the subject in three: what it passed over, the text
    matched and the rest. *)
Lemma search_sound (r : regex) (s : string) :
  forall prev before m rest,
    search r prev s = Some (before, m, rest) ->
    s = (before ++ m ++ rest)%string
    /\ matches r (last_char before prev) m rest.
Proof.
  induction s as [|c t IH]; intros prev before m rest H; cbn [search] in H.
  - destruct (match_at r prev EmptyString) as [rest'|] eqn:E; [|discriminate].
    apply match_at_take in E as [E Hm]. injection H as <- <- <-. now split.
  - destruct (match_at r prev (String c t)) as [rest'|] eqn:E.
    + apply match_at_take in E as [E Hm]. injection H as <- <- <-. now split.
    + destruct (search r (Some c) t) as [[[b m'] rest']|] eqn:Es; [|discriminate].
      injection H as <- <- <-. apply IH in Es as [-> Hm]. now split.
Qed.

Lemma smap_length (f : ascii -> ascii) (s : string) :
  String.length (smap f s) = String.length s.
Proof. induction s as [|c s IH]; simpl; [reflexivity | now rewrite IH]. Qed.

(** Matching commutes with a renaming of the code units that the classes
    of the pattern do not see. *)
Lemma rmatch_smap (f : ascii -> ascii) (r : regex) :
  respects f r ->
  (forall c, is_word (f c) = is_word c) ->
  forall prev s k k',
    (forall p s', k' (option_map f p) (smap f s') = option_map (smap f) (k p s')) ->
    rmatch r (option_map f prev) (smap f s) k'
    = option_map (smap f) (rmatch r prev s k).
Proof.
  intros Hr Hw.
  induction r as [| p | r1 IH1 r2 IH2 | r1 IH1 r2 IH2 | r1 IH1 | | |];
    intros prev s k k' Hk; cbn [rmatch].
  - apply Hk.
  - destruct s as [|c t]; [reflexivity|]. cbn [smap]. simpl in Hr. rewrite Hr.
    destruct (p c); [apply (Hk (Some c)) | reflexivity].
  - destruct Hr as [Hr1 Hr2]. apply (IH1 Hr1). intros p1 s1. now apply (IH2 Hr2).
  - destruct Hr as [Hr1 Hr2]. rewrite (IH1 Hr1 prev s k k' Hk), (IH2 Hr2 prev s k k' Hk).
    now destruct (rmatch r1 prev s k).
  - simpl in Hr. rewrite smap_length.
    match goal with
    | |- ?F _ _ _ = option_map _ (?G _ _ _) => set (star' := F); set (star := G)
    end.
    generalize (String.length s). intros fuel.
    revert prev s. induction fuel as [|fuel IHf]; intros prev s; [apply Hk|].
    change (star (S fuel) prev s)
      with (match rmatch r1 prev s
                    (fun p1 s1 =>
                       if String.length s1 <? String.length s
                       then star fuel p1 s1 else None) with
            | Some rest => Some rest
            | None => k prev s
            end).
    change (star' (S fuel) (option_map f prev) (smap f s))
      with (match rmatch r1 (option_map f prev) (smap f s)
                    (fun p1 s1 =>
                       if String.length s1 <? String.length (smap f s)
                       then star' fuel p1 s1 else None) with
            | Some rest => Some rest
            | None => k' (option_map f prev) (smap f s)
            end).
    rewrite (IH1 Hr prev s
               (fun p1 s1 =>
                  if String.length s1 <? String.length s
                  then star fuel p1 s1 else None)).
    + rewrite Hk. now destruct (rmatch r1 prev s _).
    + intros p1 s1. rewrite !smap_length.
      destruct (String.length s1 <? String.length s); [apply IHf | reflexivity].
  - destruct prev; [reflexivity | apply Hk].
  - destruct s; [apply Hk | reflexivity].
  - assert (E1 : is_word_opt (option_map f prev) = is_word_opt prev)
      by (destruct prev; simpl; [apply Hw | reflexivity]).
    assert (E2 : is_word_opt (head_char (smap f s)) = is_word_opt (head_char s))
      by (destruct s; simpl; [reflexivity | apply Hw]).
    rewrite E1, E2. destruct (xorb _ _); [apply Hk | reflexivity].
Qed.

Lemma match_at_smap (f : ascii -> ascii) (r : regex) :
  respects f r -> (forall c, is_word (f c) = is_word c) ->
  forall prev s,
    match_at r (option_map f prev) (smap f s)
    = option_map (smap f) (match_at r prev s).
Proof.
  intros Hr Hw prev s. unfold match_at. now apply rmatch_smap.
Qed.

Lemma test_smap (f : ascii -> ascii) (r : regex) (s : string) :
  respects f r -> (forall c, is_word (f c) = is_word c) ->
  test r (smap f s) = test r s.
Proof.
  intros Hr Hw. unfold test.
  assert (H : forall prev,
             match search r (option_map f prev) (smap f s), search r prev s with
             | Some _, Some _ => True
             | None, None => True
             | _, _ => False
             end).
  { induction s as [|c t IH]; intros prev; cbn [search smap].
    - pose proof (match_at_smap f r Hr Hw prev EmptyString) as E.
      cbn [smap] in E. rewrite E.
      now destruct (match_at r prev EmptyString).
    - pose proof (match_at_smap f r Hr Hw prev (String c t)) as E.
      cbn [smap] in E. rewrite E.
      destruct (match_at r prev (String c t)); simpl; [exact I|].
      specialize (IH (Some c)). simpl in IH.
      destruct (search r (Some (f c)) (smap f t)) as [[[? ?] ?]|],
               (search r (Some c) t) as [[[? ?] ?]|]; tauto. }
  specialize (H None). simpl in H.
  destruct (search r None (smap f s)), (search r None s); tauto.
Qed.

(** ** Email validation *)

Lemma lower_char_facts (c : ascii) :
  email_char (lower_char c) = email_char c
  /\ Ascii.eqb "@" (lower_char c) = Ascii.eqb "@" c
  /\ Ascii.eqb "." (lower_char c) = Ascii.eqb "." c
  /\ is_word (lower_char c) = is_word c
  /\ is_space (lower_char c) = is_space c
  /\ lower_char (lower_char c) = lower_char c.
Proof.
  destruct c as [[] [] [] [] [] [] [] []]; vm_compute; repeat split.
Qed.

Lemma toLowerCase_smap (s : string) : toLowerCase s = smap lower_char s.
Proof. induction s as [|c s IH]; simpl; [reflexivity | now rewrite IH]. Qed.

Lemma toLowerCase_again (s : string) : toLowerCase (toLowerCase s) = toLowerCase s.
Proof.
  induction s as [|c s IH]; simpl; [reflexivity|].
  rewrite IH. f_equal. apply lower_char_facts.
Qed.

Lemma emailRegex_respects_lower : respects lower_char emailRegex.
Proof.
  unfold emailRegex, seq, plus, chr. simpl.
  repeat split; intros c; apply lower_char_facts.
Qed.

Lemma matches_cat_inv (r1 r2 : regex) prev m rest :
  matches (Cat r1 r2) prev m rest ->
  exists m1 m2,
    m = (m1 ++ m2)%string /\ matches r1 prev m1 (m2 ++ rest)
    /\ matches r2 (last_char m1 prev) m2 rest.
Proof. inversion 1; subst; eauto. Qed.

Lemma matches_chr_inv (p : ascii -> bool) prev m rest :
  matches (Chr p) prev m rest -> exists c, m = String c EmptyString /\ p c = true.
Proof. inversion 1; subst; eauto. Qed.

Lemma matches_bol_inv prev m rest :
  matches Bol prev m rest -> m = EmptyString /\ prev = None.
Proof. inversion 1; subst; now split. Qed.

Lemma matches_eol_inv prev m rest :
  matches Eol prev m rest -> m = EmptyString /\ rest = EmptyString.
Proof. inversion 1; subst; now split. Qed.

Lemma matches_star_class (p : ascii -> bool) r prev m rest :
  matches r prev m rest -> r = Star (Chr p) -> every p m = true.
Proof.
  induction 1 as [| | | | | | r0 prev m1 m2 rest H1 _ H2 IH2 | | |];
    intros E; try discriminate; [reflexivity|].
  injection E as ->. apply matches_chr_inv in H1 as (c & -> & Hc).
  simpl. rewrite Hc. now apply IH2.
Qed.

Lemma matches_plus_class (p : ascii -> bool) prev m rest :
  matches (plus (Chr p)) prev m rest -> m <> EmptyString /\ every p m = true.
Proof.
  unfold plus. intros H.
  apply matches_cat_inv in H as (m1 & m2 & -> & H1 & H2).
  apply matches_chr_inv in H1 as (c & -> & Hc).
  split; [discriminate|]. simpl. rewrite Hc.
  now apply (matches_star_class p _ _ _ _ H2).
Qed.

Lemma last_char_none (s : string) : last_char s None = None -> s = EmptyString.
Proof.
  destruct s as [|c t]; [reflexivity|]. simpl.
  assert (H : forall u d, last_char u (Some d) <> None).
  { induction u as [|x u IH]; intros d; simpl; [discriminate | apply IH]. }
  intros E. now destruct (H t c).
Qed.

(** What [emailRegex] accepts: a text made of three non-empty parts free of
    white space and of [@], with [@] after the first and a dot after the
    second. *)
Lemma emailRegex_shape (t : string) :
  test emailRegex t = true ->
  exists a b c,
    t = (a ++ "@" ++ b ++ "." ++ c)%string
    /\ email_part a /\ email_part b /\ email_part c.
Proof.
  unfold test. intros H.
  destruct (search emailRegex None t) as [[[before m] rest]|] eqn:E; [|discriminate].
  apply search_sound in E as [-> Hm].
  unfold emailRegex in Hm. cbv zeta in Hm. cbn [seq] in Hm.
  apply matches_cat_inv in Hm as (m0 & m1 & -> & H0 & Hm).
  apply matches_bol_inv in H0 as [-> Hprev]. apply last_char_none in Hprev as ->.
  apply matches_cat_inv in Hm as (a & m2 & -> & Ha & Hm).
  apply matches_plus_class in Ha.
  apply matches_cat_inv in Hm as (x & m3 & -> & Hx & Hm).
  apply matches_chr_inv in Hx as (cx & -> & Hx). apply Ascii.eqb_eq in Hx as <-.
  apply matches_cat_inv in Hm as (b & m4 & -> & Hb & Hm).
  apply matches_plus_class in Hb.
  apply matches_cat_inv in Hm as (y & m5 & -> & Hy & Hm).
  apply matches_chr_inv in Hy as (cy & -> & Hy). apply Ascii.eqb_eq in Hy as <-.
  apply matches_cat_inv in Hm as (c & m6 & -> & Hc & Hm).
  apply matches_plus_class in Hc.
  apply matches_eol_inv in Hm as [-> ->].
  exists a, b, c. split; [|repeat split; tauto].
  simpl. now rewrite !append_empty_r.
Qed.

Lemma every_append (p : ascii -> bool) (a b : string) :
  every p (a ++ b) = every p a && every p b.
Proof.
  induction a as [|c a IH]; simpl; [reflexivity|]. rewrite IH. apply andb_assoc.
Qed.

Lemma trim_no_space (s : string) :
  every (fun c => negb (is_space c)) s = true -> trim s = s.
Proof.
  intros H. unfold trim.
  assert (Hstart : trimStart s = s).
  { destruct s as [|c t]; [reflexivity|]. simpl in *.
    apply andb_true_iff in H as [Hc _]. apply negb_true_iff in Hc. now rewrite Hc. }
  rewrite Hstart. clear Hstart.
  induction s as [|c t IH]; simpl in *; [reflexivity|].
  apply andb_true_iff in H as [Hc Ht]. rewrite (IH Ht).
  apply negb_true_iff in Hc. rewrite Hc. now destruct t.
Qed.

Lemma email_part_no_space (s : string) :
  every email_char s = true -> every (fun c => negb (is_space c)) s = true.
Proof.
  induction s as [|c t IH]; simpl; [reflexivity|]. intros H.
  apply andb_true_iff in H as [Hc Ht]. rewrite (IH Ht), andb_true_r.
  unfold email_char in Hc. apply negb_true_iff in Hc.
  apply orb_false_iff in Hc as [Hc _]. now rewrite Hc.
Qed.

Lemma emailRegex_trimmed (t : string) : test emailRegex t = true -> trim t = t.
Proof.
  intros H. apply emailRegex_shape in H as (a & b & c & -> & [_ Ha] & [_ Hb] & [_ Hc]).
  apply trim_no_space. rewrite !every_append.
  rewrite (email_part_no_space a Ha), (email_part_no_space b Hb),
    (email_part_no_space c Hc). reflexivity.
Qed.

Lemma validateEmail_string (s : string) :
  validateEmail (Some (JStr s))
  = if test emailRegex (trim s) then FStr (toLowerCase (trim s)) else FNull.
Proof.
  unfold validateEmail. destruct s as [|c t]; [reflexivity|].
  reflexivity.
Qed.

(** A validated address validates to itself. *)
Lemma validateEmail_fixed (s : string) :
  test emailRegex (trim s) = true ->
  validateEmail (Some (JStr (toLowerCase (trim s)))) = FStr (toLowerCase (trim s)).
Proof.
  intros H.
  assert (Hlow : test emailRegex (toLowerCase (trim s)) = true).
  { rewrite toLowerCase_smap, test_smap; [exact H | apply emailRegex_respects_lower |].
    intros c. apply lower_char_facts. }
  rewrite validateEmail_string, (emailRegex_trimmed _ Hlow), Hlow.
  now rewrite toLowerCase_again.
Qed.

Lemma validateEmail_again (v : value) :
  validateEmail (field_value (validateEmail v)) = validateEmail v.
Proof.
  destruct v as [[| b | n | s | l | f]|]; try reflexivity.
  rewrite validateEmail_string.
  destruct (test emailRegex (trim s)) eqn:E; [|reflexivity].
  simpl field_value. rewrite validateEmail_fixed by exact E.
  reflexivity.
Qed.

(** X9.  When [validateEmail] returns an address, the input was a string,
    and the address is its trimmed form in lower case; the address has no
    white space, exactly one [@], with a non-empty text before it and,
    after it, a dot between two non-empty texts; and the address validates
    to itself. *)
Theorem validateEmail_result (v : value) (e : string) :
  validateEmail v = FStr e ->
  (exists s, v = Some (JStr s) /\ e = toLowerCase (trim s))
  /\ (exists a b c,
         e = (a ++ "@" ++ b ++ "." ++ c)%string
         /\ email_part a /\ email_part b /\ email_part c)
  /\ toLowerCase e = e
  /\ trim e = e
  /\ validateEmail (Some (JStr e)) = FStr e.
Proof.
  intros H.
  destruct v as [[| b | n | s | l | f]|]; try discriminate H.
  rewrite validateEmail_string in H.
  destruct (test emailRegex (trim s)) eqn:E; [|discriminate H].
  injection H as <-.
  pose proof (validateEmail_fixed s E) as Hfix.
  assert (Hlow : test emailRegex (toLowerCase (trim s)) = true).
  { rewrite validateEmail_string in Hfix.
    destruct (test emailRegex (trim (toLowerCase (trim s)))) eqn:E'; [|discriminate].
    rewrite toLowerCase_smap, test_smap; [exact E | apply emailRegex_respects_lower |].
    intros c. apply lower_char_facts. }
  split; [now exists s|].
  split; [now apply emailRegex_shape|].
  split; [apply toLowerCase_again|].
  split; [now apply emailRegex_trimmed | exact Hfix].
Qed.

(** The address " JANE@X.COM ". *)
Lemma validateEmail_result_witness :
  validateEmail (Some (JStr " JANE@X.COM ")) = FStr "jane@x.com"
  /\ validateEmail (Some (JStr "jane@x.com")) = FStr "jane@x.com".
Proof.
  split; [reflexivity|].
  exact (proj2 (proj2 (proj2 (proj2
           (validateEmail_result (Some (JStr " JANE@X.COM ")) "jane@x.com" eq_refl))))).
Defined.

(** ** The invariant of the responses *)

Lemma validateRating_ok (v : value) (lo hi : Q) :
  rating_ok lo hi (Some (validateRating v (Num lo) (Num hi))).
Proof.
  destruct v as [[| b | n | s | l | f]|]; try exact I;
    try (rewrite validateRating_kept by (intros; discriminate);
         destruct (in_range lo hi _) eqn:E; [|exact I];
         simpl; split; [exact E | discriminate]).
  rewrite validateRating_string.
  destruct (s =? "")%string; [exact I|].
  destruct (in_range lo hi (parseInt s)) eqn:E; [|exact I].
  simpl. split; [exact E | discriminate].
Qed.

Lemma validateText_ok (v : value) : text_ok (validateText v).
Proof.
  destruct v as [[| b | n | s | l | f]|]; try exact I.
  rewrite validateText_string.
  destruct ((1 <=? String.length (trim s)) && (String.length (trim s) <=? 1000)) eqn:E;
    [|exact I].
  apply andb_true_iff in E as [E1 E2]. apply Nat.leb_le in E1, E2.
  simpl. split; [apply trim_idempotent | lia].
Qed.

Lemma validateEmail_ok (v : value) : email_ok (validateEmail v).
Proof.
  destruct v as [[| b | n | s | l | f]|]; try exact I.
  rewrite validateEmail_string.
  destruct (test emailRegex (trim s)) eqn:E; [|exact I].
  simpl. split; [apply toLowerCase_again|].
  rewrite toLowerCase_smap, test_smap; [exact E | apply emailRegex_respects_lower |].
  intros c. apply lower_char_facts.
Qed.

Lemma clean_response_well_formed (c : string) (j : json) :
  course_name (clean_response c j) = c /\ well_formed (clean_response c j).
Proof.
  split; [reflexivity|]. unfold well_formed, plain_text_fields, clean_response.
  cbn [q1_rating q2_rating q3_rating q4_rating q5_rating q6_rating q7_rating
       q8_rating q9_rating q10_rating q11_expectations q12_overall_rating
       learned_1 learned_2 learned_3 suggestions comments interested_more
       participant_name company email phone].
  split; [|split; [|split]].
  - repeat (constructor; [apply validateRating_ok|]). constructor.
  - apply validateRating_ok.
  - repeat (constructor; [apply validateText_ok|]). constructor.
  - apply validateEmail_ok.
Qed.

Lemma validateText_set (v : value) : validateText v <> FUndefined.
Proof.
  destruct v as [[| b | n | s | l | f]|]; try discriminate.
  rewrite validateText_string.
  now destruct ((1 <=? String.length (trim s)) && (String.length (trim s) <=? 1000)).
Qed.

Lemma validateEmail_set (v : value) : validateEmail v <> FUndefined.
Proof.
  destruct v as [[| b | n | s | l | f]|]; try discriminate.
  rewrite validateEmail_string. now destruct (test emailRegex (trim s)).
Qed.

Lemma clean_response_all_set (c : string) (j : json) : all_set (clean_response c j).
Proof.
  unfold all_set, rating_fields, plain_text_fields, clean_response.
  cbn [q1_rating q2_rating q3_rating q4_rating q5_rating q6_rating q7_rating
       q8_rating q9_rating q10_rating q11_expectations q12_overall_rating
       learned_1 learned_2 learned_3 suggestions comments interested_more
       participant_name company email phone].
  split.
  - repeat (constructor; [discriminate|]). constructor.
  - constructor; [apply validateEmail_set|].
    repeat (constructor; [apply validateText_set|]). constructor.
Qed.

(** The validation of a rating keeps values that are not whole numbers, or
    not numbers. *)
Lemma ratings_kept_as_given :
  validateRating (Some (JNum (Num (9 # 2)))) (Num 1) (Num 5) = JNum (Num (9 # 2))
  /\ validateRating (Some (JBool true)) (Num 1) (Num 5) = JBool true
  /\ validateRating (Some (JArr [JNum (Num 3)])) (Num 1) (Num 5) = JArr [JNum (Num 3)].
Proof. repeat split; vm_compute; reflexivity. Qed.

Lemma validResponses_ok (c : string) (items : list json) :
  Forall (extracted_ok c) (validResponses c items).
Proof.
  apply Forall_forall. intros r Hr. unfold validResponses in Hr.
  apply filter_In in Hr as [Hr Hm]. apply in_map_iff in Hr as [j [<- _]].
  destruct (clean_response_well_formed c j) as [Hc Hw].
  split; [exact Hc | split; [exact Hw | split; [apply clean_response_all_set | exact Hm]]].
Qed.

Lemma page_responses_ok (c : string) (pageData : json) (l : list SurveyResponse) :
  page_responses c pageData = Return l -> Forall (extracted_ok c) l.
Proof.
  unfold page_responses. destruct pageData; simpl; try discriminate;
    try (intros H; injection H as <-; constructor).
  destruct (assoc "responses" fields) as [[| | | | items |]|];
    intros H; injection H as <-; try constructor.
  apply validResponses_ok.
Qed.

Lemma vision_pages_ok (c : string) (pages : list LLMCall) :
  forall found l,
    Forall (extracted_ok c) found ->
    vision_pages c pages found = Return l ->
    Forall (extracted_ok c) l.
Proof.
  induction pages as [|page rest IH]; intros found l Hfound H; simpl in H.
  - injection H as <-. exact Hfound.
  - destruct (fetched page) as [response|e]; simpl in H; [|discriminate].
    destruct (ok response); simpl in H.
    + destruct (json_body response) as [result|e]; simpl in H; [|discriminate].
      destruct (vision_content result) as [content|e]; simpl in H; [|discriminate].
      destruct (JSON_parse page content) as [pageData|e]; simpl in H.
      * destruct (page_responses c pageData) as [here|e] eqn:E; simpl in H.
        -- apply (IH _ _ (proj2 (Forall_app _ _ _)
                            (conj Hfound (page_responses_ok c pageData here E))) H).
        -- rewrite app_nil_r in H. apply (IH _ _ Hfound H).
      * rewrite app_nil_r in H. apply (IH _ _ Hfound H).
    + destruct (json_body response) as [error|e]; simpl in H; [|discriminate].
      apply (IH _ _ Hfound H).
Qed.

Lemma processPDFWithOpenAI_ok (w : World) (courseName : string)
        (forms : list SurveyResponse) :
  processPDFWithOpenAI w courseName = Return forms ->
  Forall (extracted_ok courseName) forms.
Proof.
  unfold processPDFWithOpenAI, try_catch.
  destruct (openai_body w courseName) as [l|e] eqn:E.
  - intros H. injection H as <-. revert E. unfold openai_body.
    destruct (appears_scanned (raw_text w)).
    + unfold processPDFWithOpenAIVision, try_catch.
      destruct (images w) as [pages|e]; simpl; [|discriminate].
      destruct (vision_pages courseName pages []) as [l'|e] eqn:Ev; [|discriminate].
      intros H. injection H as <-.
      apply (vision_pages_ok courseName pages [] l' (Forall_nil _) Ev).
    + destruct (fetched (text_call w)) as [response|e]; simpl; [|discriminate].
      destruct (json_body response) as [result|e]; simpl; [|discriminate].
      destruct (text_content result) as [content|e]; simpl; [|discriminate].
      destruct (truthy content); simpl; [|discriminate].
      destruct (JSON_parse (text_call w) content) as [parsedData|e]; simpl;
        [|discriminate].
      destruct (response_list parsedData) as [items|e]; simpl; [|discriminate].
      intros H. injection H as <-. apply validResponses_ok.
  - rewrite traditional_nothing. intros H. injection H as <-. constructor.
Qed.

(** X10.  Every response that [processPDFWithOpenAI] returns, by the text
    path, the vision path or the fallback, carries the course name it was
    given, whatever the LLM answered for it.  Each of its ratings and texts
    is set, be it to null.  Each Likert rating is null, or a value other
    than a string that [Number] reads as a number within 1..5, and the
    recommendation likewise for 0..10: the value is kept as the LLM gave
    it, and need not be a whole number, nor a number.  Its texts are null or
    trimmed strings of 1 to 1000 code units; its address is null or a
    lower-case string of the address shape; and it has meaningful data. *)
Theorem openai_responses_well_formed (w : World) (courseName : string)
        (forms : list SurveyResponse) :
  processPDFWithOpenAI w courseName = Return forms ->
  Forall (extracted_ok courseName) forms.
Proof. apply processPDFWithOpenAI_ok. Qed.

(** A readable file in which the LLM finds Bob's form. *)
Lemma openai_responses_well_formed_witness :
  processPDFWithOpenAI (text_run in_responses None) "Leadership 101"
  = Return [clean_response "Leadership 101" bob_json]
  /\ Forall (extracted_ok "Leadership 101") [clean_response "Leadership 101" bob_json].
Proof.
  assert (H : processPDFWithOpenAI (text_run in_responses None) "Leadership 101"
              = Return [clean_response "Leadership 101" bob_json])
    by (vm_compute; reflexivity).
  split; [exact H|].
  exact (openai_responses_well_formed _ _ _ H).
Defined.

Lemma extraction_ok (w : World) (settings : UserSettings) (c : string)
      (forms : list SurveyResponse) :
  extraction w settings c = Return forms -> Forall (extracted_ok c) forms.
Proof.
  unfold extraction. destruct (openai_enabled settings && nonempty (openai_api_key settings)).
  - apply processPDFWithOpenAI_ok.
  - rewrite traditional_nothing. intros H. injection H as <-. constructor.
Qed.

Lemma placeholder_well_formed (w : World) (c : string) :
  well_formed (placeholderForm w c).
Proof.
  unfold well_formed, placeholderForm, bare_response, plain_text_fields. simpl.
  repeat split; repeat constructor.
Qed.

(** X11.  Every row that a run adds to the table of responses holds the
    course name of the upload and a response that passes the validation:
    each rating is missing, null, or a value other than a string that
    [Number] reads as a number within its bounds, each text is missing,
    null or a trimmed string of 1 to 1000 code units, and the address is
    missing, null or a lower-case string of the address shape.  The rows
    added by one run are either responses with meaningful data, or the
    placeholder alone. *)
Theorem inserted_rows_well_formed (w : World) (db : Database) :
  exists rows,
    survey_responses (snd (serve w db)) = survey_responses db ++ rows
    /\ Forall (fun row =>
                 well_formed (form row)
                 /\ exists u, course_uploads db = Some u
                              /\ course_name (form row) = upload_course_name u)
              rows
    /\ (Forall (fun row => hasMeaningfulSurveyData (form row) = true) rows
        \/ exists u, course_uploads db = Some u
                     /\ map form rows = [placeholderForm w (upload_course_name u)]).
Proof.
  destruct (serve_cases w db)
    as [[Hrun | [e Hrun]] | [[e Hrun]
        | (body & upload & forms & Hreach & Hex & _
           & [(e & e' & Hc & Hrun) | (Hc & message & Hrun)])]].
  1-3: exists []; rewrite Hrun; cbn [snd]; rewrite ?marked_failed_rows, app_nil_r;
    split; [reflexivity | split; [constructor | left; constructor]].
  all: exists (rows_of (reqUploadId body)
                       (with_placeholder w (upload_course_name upload) forms)).
  all: rewrite Hrun; cbn [snd];
    rewrite ?failed_after_insert_rows, ?marked_completed_rows.
  all: split; [reflexivity|].
  all: destruct Hreach as (_ & _ & _ & _ & Hup & _).
  all: apply extraction_ok in Hex.
  all: destruct forms as [|r forms]; cbn [with_placeholder].
  1,3: simpl; split;
    [ constructor; [|constructor]; simpl;
      split; [apply placeholder_well_formed | now exists upload]
    | right; now exists upload ].
  all: rewrite Forall_forall in Hex; unfold rows_of; split;
    [ apply Forall_forall; intros row Hrow;
      apply in_map_iff in Hrow as [f [<- Hf]]; simpl;
      destruct (Hex f Hf) as (Hn & Hw & _);
      split; [exact Hw | now exists upload]
    | left; apply Forall_forall; intros row Hrow;
      apply in_map_iff in Hrow as [f [<- Hf]]; simpl;
      now destruct (Hex f Hf) as (_ & _ & _ & Hm) ].
Qed.

(** ** Reading a response back *)

Lemma or_null_read_back (d : value) :
  or_null (Some (value_json (or_null d))) = or_null d.
Proof.
  unfold or_null. destruct (truthy d) eqn:E.
  - destruct d as [j|]; [|discriminate]. cbn [value_json]. now rewrite E.
  - reflexivity.
Qed.

Lemma validateText_read_back (v : value) :
  validateText (Some (value_json (field_value (validateText v)))) = validateText v.
Proof.
  rewrite <- (validateText_again v) at 2.
  destruct v as [[| b | n | s | l | f]|]; try reflexivity.
  rewrite validateText_string. now destruct (_ && _).
Qed.

Lemma validateEmail_read_back (v : value) :
  validateEmail (Some (value_json (field_value (validateEmail v)))) = validateEmail v.
Proof.
  rewrite <- (validateEmail_again v) at 2.
  destruct v as [[| b | n | s | l | f]|]; try reflexivity.
  rewrite validateEmail_string. now destruct (test emailRegex (trim s)).
Qed.

(** X12.  Cleaning is idempotent: a cleaned response, stored and read back
    as a row, cleans to itself; nothing of it is lost or changed by a second
    validation. *)
Theorem clean_response_read_back (c : string) (j : json) :
  clean_response c (response_json (clean_response c j)) = clean_response c j.
Proof.
  set (r := clean_response c j).
  unfold clean_response at 1.
  cbn [prop response_json assoc String.eqb Ascii.eqb Bool.eqb].
  subst r. unfold clean_response.
  cbn [course_name response_date q1_rating q2_rating q3_rating q4_rating q5_rating
       q6_rating q7_rating q8_rating q9_rating q10_rating q11_expectations
       q12_overall_rating learned_1 learned_2 learned_3 suggestions comments
       interested_more participant_name company email phone value_json].
  rewrite or_null_read_back, !validateRating_again, !validateText_read_back,
    validateEmail_read_back.
  reflexivity.
Qed.

(** ** The text normalisers *)

Lemma every_trimStart (p : ascii -> bool) (s : string) :
  every p s = true -> every p (trimStart s) = true.
Proof.
  induction s as [|c t IH]; simpl; [easy|]. intros H.
  apply andb_true_iff in H as [Hc Ht].
  destruct (is_space c); [now apply IH | simpl; now rewrite Hc, Ht].
Qed.

Lemma every_trimEnd (p : ascii -> bool) (s : string) :
  every p s = true -> every p (trimEnd s) = true.
Proof.
  induction s as [|c t IH]; simpl; [easy|]. intros H.
  apply andb_true_iff in H as [Hc Ht]. specialize (IH Ht).
  destruct (trimEnd t); [destruct (is_space c); simpl; now rewrite ?Hc|].
  simpl in *. now rewrite Hc, IH.
Qed.

Lemma every_trim (p : ascii -> bool) (s : string) :
  every p s = true -> every p (trim s) = true.
Proof. intros H. unfold trim. now apply every_trimEnd, every_trimStart. Qed.

(** A replacement that only puts in code units of a class keeps a text
    within that class. *)
Lemma replace_go_every (p : ascii -> bool) (f : string -> string) (r : regex) :
  (forall m, every p m = true -> every p (f m) = true) ->
  forall fuel prev s,
    every p s = true -> every p (replace_go fuel r f prev s) = true.
Proof.
  intros Hf. induction fuel as [|fuel IH]; intros prev s Hs; [exact Hs|].
  cbn [replace_go].
  destruct (search r prev s) as [[[before m] rest]|] eqn:E; [|exact Hs].
  apply search_sound in E as [-> _].
  rewrite !every_append in Hs.
  apply andb_true_iff in Hs as [Hb Hs]. apply andb_true_iff in Hs as [Hm Hr].
  rewrite !every_append, Hb, (Hf m Hm). simpl.
  destruct m as [|c m]; [destruct rest as [|c t]|]; try reflexivity.
  - simpl in Hr. apply andb_true_iff in Hr as [Hc Ht].
    simpl. rewrite Hc. now apply IH.
  - now apply IH.
Qed.

Lemma replace_all_every (p : ascii -> bool) (f : string -> string) (r : regex)
      (s : string) :
  (forall m, every p m = true -> every p (f m) = true) ->
  every p s = true -> every p (replace_all r f s) = true.
Proof. intros Hf Hs. unfold replace_all. now apply replace_go_every. Qed.

Lemma search_class (p : ascii -> bool) (s : string) :
  forall prev,
    match search (Chr p) prev s with
    | Some (before, m, rest) =>
        every (fun c => negb (p c)) before = true
        /\ String.length rest < String.length s
        /\ m <> EmptyString
    | None => every (fun c => negb (p c)) s = true
    end.
Proof.
  induction s as [|c t IH]; intros prev; cbn [search match_at rmatch]; [reflexivity|].
  destruct (p c) eqn:Hc.
  - cbn [String.length]. rewrite Nat.sub_succ_l, Nat.sub_diag by lia.
    simpl. repeat split; [lia | discriminate].
  - specialize (IH (Some c)).
    destruct (search (Chr p) (Some c) t) as [[[before m] rest]|].
    + destruct IH as (Hb & Hl & Hm). simpl. rewrite Hc, Hb.
      repeat split; [lia | exact Hm].
    + simpl. now rewrite Hc, IH.
Qed.

(** Replacing every code unit of a class leaves none of that class. *)
Lemma replace_class_every (p q : ascii -> bool) (f : string -> string) :
  (forall c, p c = false -> q c = true) ->
  (forall m, every q (f m) = true) ->
  forall fuel prev s,
    String.length s < fuel ->
    every q (replace_go fuel (Chr p) f prev s) = true.
Proof.
  intros Hpq Hf.
  assert (Hskip : forall u, every (fun c => negb (p c)) u = true -> every q u = true).
  { induction u as [|c u IH]; simpl; [easy|]. intros H.
    apply andb_true_iff in H as [Hc Hu]. apply negb_true_iff in Hc.
    now rewrite (Hpq c Hc), (IH Hu). }
  induction fuel as [|fuel IH]; intros prev s Hlen; [lia|].
  cbn [replace_go]. pose proof (search_class p s prev) as Hsearch.
  destruct (search (Chr p) prev s) as [[[before m] rest]|]; [|now apply Hskip].
  destruct Hsearch as (Hb & Hl & Hm).
  rewrite !every_append, (Hskip _ Hb), Hf. simpl.
  destruct m as [|c m]; [congruence|].
  apply IH. lia.
Qed.

Lemma printable_after_replacing (s : string) :
  every printable
        (replace_all (Chr (fun c => negb ((32 <=? code c) && (code c <=? 126))))
                     one_space s)
  = true.
Proof.
  unfold replace_all. apply replace_class_every.
  - intros c Hc. apply negb_false_iff in Hc. exact Hc.
  - reflexivity.
  - lia.
Qed.

(** X13.  Both text normalisers return only printable ASCII, U+0020 to
    U+007E, with no white space at either end. *)
Theorem normalised_text_printable (text : string) :
  every printable (cleanAndNormalizeText text) = true
  /\ trim (cleanAndNormalizeText text) = cleanAndNormalizeText text
  /\ every printable (cleanExtractedText text) = true
  /\ trim (cleanExtractedText text) = cleanExtractedText text.
Proof.
  assert (Hconst : forall t, every printable t = true ->
                             forall m : string, every printable m = true ->
                                                every printable t = true)
    by (intros t Ht m _; exact Ht).
  split; [|split; [apply trim_idempotent | split; [|apply trim_idempotent]]].
  - unfold cleanAndNormalizeText. apply every_trim.
    apply replace_all_every.
    { intros m Hm. unfold collapse_spaces.
      apply replace_all_every; [intros ? _; reflexivity | exact Hm]. }
    apply replace_all_every.
    { intros m Hm. unfold slash_date.
      apply replace_all_every; [intros ? _; reflexivity | exact Hm]. }
    apply printable_after_replacing.
  - unfold cleanExtractedText. apply every_trim.
    apply replace_all_every; [intros ? _; reflexivity|].
    apply printable_after_replacing.
Qed.

(** ** The measures of the scanned-document detector *)

Lemma concat_cons_length (x : string) (l : list string) :
  String.length (String.concat "" (x :: l))
  = String.length x + String.length (String.concat "" l).
Proof.
  destruct l as [|y l]; cbn [String.concat]; rewrite ?append_length; simpl; lia.
Qed.

(** The matches of a global search are disjoint pieces of the subject. *)
Lemma match_all_go_length (r : regex) :
  forall fuel prev s,
    String.length (String.concat "" (match_all_go fuel r prev s)) <= String.length s.
Proof.
  induction fuel as [|fuel IH]; intros prev s; cbn [match_all_go]; [simpl; lia|].
  destruct (search r prev s) as [[[before m] rest]|] eqn:E; [|simpl; lia].
  apply search_sound in E as [-> _]. rewrite !append_length.
  destruct m as [|c m]; [destruct rest as [|c t]|].
  - simpl. lia.
  - rewrite concat_cons_length. specialize (IH (Some c) t).
    cbn [String.length]. lia.
  - rewrite concat_cons_length.
    specialize (IH (last_char (String c m) (last_char before prev)) rest). lia.
Qed.

Lemma matches_wordb_inv prev m rest :
  matches WordB prev m rest ->
  m = EmptyString /\ xorb (is_word_opt prev) (is_word_opt (head_char rest)) = true.
Proof. inversion 1; subst; now split. Qed.

Lemma last_char_every (p : ascii -> bool) (s : string) :
  forall c d, every p (String c s) = true ->
              exists x, last_char (String c s) d = Some x /\ p x = true.
Proof.
  induction s as [|y s IH]; intros c d H.
  - simpl in *. apply andb_true_iff in H as [Hc _]. now exists c.
  - cbn [every] in H. apply andb_true_iff in H as [_ H].
    cbn [last_char]. apply (IH y (Some c) H).
Qed.

Lemma is_alpha_word (c : ascii) : is_alpha c = true -> is_word c = true.
Proof. unfold is_word. now intros ->. Qed.

(** A match of [word_re] is at least four letters, and what follows it does
    not start with a code unit of [\w]. *)
Lemma word_re_match prev m rest :
  matches word_re prev m rest ->
  (exists c t, m = String c t /\ is_alpha c = true /\ 3 <= String.length t)
  /\ is_word_opt (head_char rest) = false.
Proof.
  unfold word_re. cbn [seq at_least]. intros H.
  apply matches_cat_inv in H as (m0 & m' & -> & H0 & H).
  apply matches_wordb_inv in H0 as [-> _].
  apply matches_cat_inv in H as (mA & mB & -> & HA & HB).
  apply matches_wordb_inv in HB as [-> HB].
  apply matches_cat_inv in HA as (x1 & m1 & -> & H1 & HA).
  apply matches_chr_inv in H1 as (c1 & -> & Hc1).
  apply matches_cat_inv in HA as (x2 & m2 & -> & H2 & HA).
  apply matches_chr_inv in H2 as (c2 & -> & Hc2).
  apply matches_cat_inv in HA as (x3 & m3 & -> & H3 & HA).
  apply matches_chr_inv in H3 as (c3 & -> & Hc3).
  apply matches_cat_inv in HA as (x4 & m4 & -> & H4 & HA).
  apply matches_chr_inv in H4 as (c4 & -> & Hc4).
  apply (matches_star_class is_alpha) in HA; [|reflexivity].
  cbn [String.append] in *. split.
  - exists c1. eexists. split; [rewrite append_empty_r; reflexivity|].
    split; [exact Hc1|]. cbn [String.length]. lia.
  - assert (Hall : every is_alpha (String c1 (String c2 (String c3 (String c4 m4)))) = true)
      by (simpl; now rewrite Hc1, Hc2, Hc3, Hc4, HA).
    destruct (last_char_every is_alpha _ c1 (last_char EmptyString prev) Hall)
      as (x & Hx & Hpx).
    rewrite Hx in HB. cbn [is_word_opt] in HB.
    rewrite (is_alpha_word x Hpx) in HB.
    now destruct (is_word_opt (head_char rest)).
Qed.

(** Two words found by [word_re] are at least one code unit apart. *)
Lemma word_count :
  forall fuel prev s,
    5 * List.length (match_all_go fuel word_re prev s)
    <= String.length s + (if is_word_opt (head_char s) then 1 else 0).
Proof.
  induction fuel as [|fuel IH]; intros prev s; cbn [match_all_go]; [simpl; lia|].
  destruct (search word_re prev s) as [[[before m] rest]|] eqn:E; [|simpl; lia].
  apply search_sound in E as [-> Hm].
  apply word_re_match in Hm as [(c & t & -> & Hc & Ht) Hrest].
  specialize (IH (last_char (String c t) (last_char before prev)) rest).
  rewrite Hrest in IH. rewrite !append_length.
  cbn [List.length String.length].
  destruct before as [|b before].
  - cbn [String.append head_char is_word_opt]. rewrite (is_alpha_word c Hc).
    cbn [String.length]. lia.
  - cbn [String.length].
    destruct (is_word_opt (head_char (String b before ++ String c t ++ rest))); lia.
Qed.

Lemma real_words_bound (rawText : string) :
  5 * List.length (real_words rawText) <= String.length rawText + 1.
Proof.
  unfold real_words, match_all.
  pose proof (word_count (S (String.length rawText)) None rawText) as H.
  destruct (is_word_opt (head_char rawText)); lia.
Qed.

(** X14.  The readable-text ratio is not a number for the empty text and
    for no other; for a text that is not empty it lies between 0 and 1.
    The words counted by [hasActualWords] are at least four letters each
    and at least one code unit apart. *)
Theorem detector_measures (rawText : string) :
  ((rawText = EmptyString /\ readableTextRatio rawText = NaN)
   \/ (rawText <> EmptyString
       /\ exists q, readableTextRatio rawText = Num q /\ (0 <= q)%Q /\ (q <= 1)%Q))
  /\ 5 * List.length (real_words rawText) <= String.length rawText + 1
  /\ Forall (fun word => 4 <= String.length word /\ every is_alpha word = true)
            (real_words rawText).
Proof.
  split; [|split; [apply real_words_bound|]].
  - destruct rawText as [|c t]; [left; split; reflexivity|].
    right. split; [discriminate|].
    unfold readableTextRatio, match_all.
    pose proof (match_all_go_length readable_re (S (String.length (String c t))) None
                                    (String c t)) as Hlen.
    set (a := String.length (String.concat "" _)) in *.
    set (b := String.length (String c t)) in *.
    assert (Hb : b <> 0) by (subst b; simpl; lia).
    unfold length_ratio. apply Nat.eqb_neq in Hb as Hb'. rewrite Hb'.
    eexists. split; [reflexivity|].
    assert (Hpos : Z.pos (Pos.of_nat b) = Z.of_nat b)
      by (rewrite <- positive_nat_Z, Nat2Pos.id by exact Hb; reflexivity).
    unfold Qle. cbn [Qnum Qden]. rewrite Hpos. lia.
  - unfold real_words, match_all.
    generalize (S (String.length rawText)), (@None ascii).
    intros fuel. revert rawText.
    induction fuel as [|fuel IH]; intros s prev; cbn [match_all_go]; [constructor|].
    destruct (search word_re prev s) as [[[before m] rest]|] eqn:E; [|constructor].
    apply search_sound in E as [-> Hm].
    assert (Hword : 4 <= String.length m /\ every is_alpha m = true).
    { clear IH. unfold word_re in Hm. cbn [seq] in Hm.
      apply matches_cat_inv in Hm as (m0 & m' & -> & H0 & H).
      apply matches_wordb_inv in H0 as [-> _].
      apply matches_cat_inv in H as (mA & mB & -> & HA & HB).
      apply matches_wordb_inv in HB as [-> _].
      cbn [String.append]. rewrite append_empty_r.
      cbn [at_least] in HA.
      apply matches_cat_inv in HA as (x1 & m1 & -> & H1 & HA).
      apply matches_chr_inv in H1 as (c1 & -> & Hc1).
      apply matches_cat_inv in HA as (x2 & m2 & -> & H2 & HA).
      apply matches_chr_inv in H2 as (c2 & -> & Hc2).
      apply matches_cat_inv in HA as (x3 & m3 & -> & H3 & HA).
      apply matches_chr_inv in H3 as (c3 & -> & Hc3).
      apply matches_cat_inv in HA as (x4 & m4 & -> & H4 & HA).
      apply matches_chr_inv in H4 as (c4 & -> & Hc4).
      apply (matches_star_class is_alpha) in HA; [|reflexivity].
      simpl. rewrite Hc1, Hc2, Hc3, Hc4, HA. split; [lia | reflexivity]. }
    destruct m as [|c m]; [simpl in Hword; lia|].
    constructor; [exact Hword | apply IH].
Qed.

(** X15.  A raw text that holds one of the markers of encoded data and has
    fewer than 254 code units is always taken for a scan and sent to the
    vision path: it cannot hold more than 50 words. *)
Theorem short_marked_text_is_scanned (rawText : string) :
  hasEncodedData rawText = true ->
  String.length rawText < 254 ->
  hasActualWords rawText = false /\ appears_scanned rawText = true.
Proof.
  intros Hmark Hlen.
  assert (Hwords : hasActualWords rawText = false).
  { unfold hasActualWords. apply Nat.ltb_ge.
    pose proof (real_words_bound rawText). lia. }
  split; [exact Hwords|].
  unfold appears_scanned, isLikelyScanned. rewrite Hmark, Hwords.
  apply orb_true_r.
Qed.

Lemma short_marked_text_is_scanned_witness :
  hasEncodedData image_only_text = true
  /\ String.length image_only_text < 254
  /\ appears_scanned image_only_text = true.
Proof.
  split; [reflexivity|]. split; [vm_compute; lia|].
  apply (short_marked_text_is_scanned image_only_text); [reflexivity | vm_compute; lia].
Defined.

(** ** Runs without an API key *)

Lemma extraction_without_key (w : World) (settings : UserSettings) (c : string) :
  nonempty (openai_api_key settings) = false ->
  extraction w settings c = Return [].
Proof.
  intros H. unfold extraction. rewrite H, andb_false_r. apply traditional_nothing.
Qed.

(** X16.  When no API key is stored for the upload of the request, a run
    never stores survey data: it adds no row, or the placeholder alone; and
    an answer that reports success reports one form and the method
    "OpenAI", although the LLM was not called. *)
Theorem without_key_only_placeholder (w : World) (db : Database) :
  nonempty (stored_key w db) = false ->
  (survey_responses (snd (serve w db)) = survey_responses db
   \/ exists upload,
        course_uploads db = Some upload
        /\ survey_responses (snd (serve w db))
           = survey_responses db
               ++ [{| upload_id := uploadId_seen w;
                      form := placeholderForm w (upload_course_name upload) |}])
  /\ (forall message n method,
         fst (serve w db) = Processed message n method ->
         n = 1 /\ method = "OpenAI"%string).
Proof.
  intros Hkey.
  destruct (serve_cases w db)
    as [[Hrun | [e Hrun]] | [[e Hrun]
        | (body & upload & forms & Hreach & Hex & _
           & [(e & e' & Hc & Hrun) | (Hc & message & Hrun)])]].
  1-3: rewrite Hrun; cbn [fst snd]; rewrite ?marked_failed_rows;
    split; [left; reflexivity | intros; discriminate].
  all: destruct Hreach as (_ & Hj & _ & _ & Hup & _).
  all: unfold stored_key in Hkey; rewrite Hup in Hkey.
  all: rewrite (extraction_without_key w _ _ Hkey) in Hex; injection Hex as <-.
  all: rewrite Hrun; cbn [fst snd with_placeholder List.length].
  all: rewrite ?failed_after_insert_rows, ?marked_completed_rows.
  all: split;
    [ right; exists upload; split; [exact Hup|];
      unfold rows_of, uploadId_seen; rewrite Hj; reflexivity |].
  - intros; discriminate.
  - intros m n meth H. injection H as _ <- <-. now split.
Qed.

Lemma without_key_only_placeholder_witness :
  nonempty (stored_key (no_settings (text_run nothing_found None)) example_db) = false
  /\ forall message n method,
       fst (serve (no_settings (text_run nothing_found None)) example_db)
       = Processed message n method ->
       n = 1 /\ method = "OpenAI"%string.
Proof.
  split; [reflexivity|].
  exact (proj2 (without_key_only_placeholder
                  (no_settings (text_run nothing_found None)) example_db eq_refl)).
Defined.
